(** * The chat endpoint of the FIFA assistant (src/app/api/chat/route.ts)

    A shallow embedding of the retrieval-augmentation logic of the chat
    route: the content-based URL classifier, the prompt assembler, the
    retrieval orchestrator and the POST handler, followed by the
    properties of these functions. *)

From Stdlib Require Import Strings.String Strings.Ascii Floats.PrimFloat.
From Stdlib Require DecimalFacts DecimalNat.
From stdpp Require Import base option list gmap.

Local Open Scope N_scope.
#[local] Set Warnings "-inexact-float".

(** ** JavaScript strings

    A JavaScript string is a sequence of UTF-16 code units.  Template
    literals and [+] are list concatenation. *)

Module JS.

Definition jsstring := list N.

(** An ASCII literal of the source, one code unit per character. *)
Definition lit (s : string) : jsstring :=
  map N_of_ascii (list_ascii_of_string s).

(** The line feed of a multi-line template literal, and the double
    quote. *)
Definition NL : jsstring := [10].
Definition DQ : jsstring := [34].

(** [s.startsWith(p)] *)
Fixpoint startsWith (s p : jsstring) {struct p} : bool :=
  match p, s with
  | [], _ => true
  | _ :: _, [] => false
  | c :: p', d :: s' => (c =? d) && startsWith s' p'
  end.

(** [s.includes(k)]: [k] occurs in [s] at some position. *)
Fixpoint includes (s k : jsstring) : bool :=
  startsWith s k ||
  match s with
  | [] => false
  | _ :: s' => includes s' k
  end.

(** [parts.join(sep)] on an array of strings. *)
Fixpoint join (sep : jsstring) (parts : list jsstring) : jsstring :=
  match parts with
  | [] => []
  | [p] => p
  | p :: rest => p ++ sep ++ join sep rest
  end.

(** [arr.map((x, index) => f(x, index))], the index counted from [k]. *)
Fixpoint mapi_from {A B} (k : nat) (f : A -> nat -> B) (l : list A) : list B :=
  match l with
  | [] => []
  | x :: l' => f x k :: mapi_from (S k) f l'
  end.

Definition mapi {A B} (f : A -> nat -> B) (l : list A) : list B :=
  mapi_from 0 f l.

(** Decimal rendering of a non-negative integer inside a template
    literal, as [Number.prototype.toString] prints an array index. *)
Fixpoint uint_units (d : Decimal.uint) : jsstring :=
  match d with
  | Decimal.Nil => []
  | Decimal.D0 d' => 48 :: uint_units d'
  | Decimal.D1 d' => 49 :: uint_units d'
  | Decimal.D2 d' => 50 :: uint_units d'
  | Decimal.D3 d' => 51 :: uint_units d'
  | Decimal.D4 d' => 52 :: uint_units d'
  | Decimal.D5 d' => 53 :: uint_units d'
  | Decimal.D6 d' => 54 :: uint_units d'
  | Decimal.D7 d' => 55 :: uint_units d'
  | Decimal.D8 d' => 56 :: uint_units d'
  | Decimal.D9 d' => 57 :: uint_units d'
  end.

Definition numberToString (n : nat) : jsstring :=
  uint_units (Nat.to_uint n).

(** White space and line terminators of ECMAScript, the code units
    that [String.prototype.trim] strips.  All of them lie in the basic
    plane, so each is a single code unit. *)
Definition isWhiteSpace (c : N) : bool :=
  (c =? 9) || (c =? 10) || (c =? 11) || (c =? 12) || (c =? 13) ||
  (c =? 32) || (c =? 160) || (c =? 5760) ||
  ((8192 <=? c) && (c <=? 8202)) ||
  (c =? 8232) || (c =? 8233) || (c =? 8239) || (c =? 8287) ||
  (c =? 12288) || (c =? 65279).

Fixpoint trimStart (s : jsstring) : jsstring :=
  match s with
  | [] => []
  | c :: s' => if isWhiteSpace c then trimStart s' else s
  end.

Definition trimEnd (s : jsstring) : jsstring :=
  rev (trimStart (rev s)).

(** [s.trim()] *)
Definition trim (s : jsstring) : jsstring := trimEnd (trimStart s).

(** Truthiness of a string: the empty string is the only falsy one. *)
Definition truthy (s : jsstring) : bool :=
  match s with [] => false | _ :: _ => true end.

(** [String.prototype.toLowerCase] restricted to the ASCII range: on a
    string whose code units are all below 128 this is what the built-in
    computes.  The development is parametric in the lower-casing
    function; this instance is used to run the code on ASCII inputs. *)
Definition asciiLowerUnit (c : N) : N :=
  if (65 <=? c) && (c <=? 90) then c + 32 else c.

Definition asciiToLowerCase (s : jsstring) : jsstring := map asciiLowerUnit s.

End JS.

Import JS.

(** ** The content-based URL classifier *)

(** The [urlMappings] object literal of [convertToRealFIFAUrl]. *)
Definition urlMappings : gmap jsstring jsstring :=
  list_to_map
    [ (* Stadium and venue information *)
      (lit "estadio-azteca",
       lit "https://fifa.com/en/tournaments/mens/worldcup/canadamexicousa2026/stadiums/mexico-city");
      (lit "estadio-akron",
       lit "https://fifa.com/en/tournaments/mens/worldcup/canadamexicousa2026/stadiums/guadalajara");
      (lit "estadio-bbva",
       lit "https://fifa.com/en/tournaments/mens/worldcup/canadamexicousa2026/stadiums/monterrey");
      (lit "sofi-stadium",
       lit "https://fifa.com/en/tournaments/mens/worldcup/canadamexicousa2026/stadiums/los-angeles");
      (lit "lumen-field",
       lit "https://fifa.com/en/tournaments/mens/worldcup/canadamexicousa2026/stadiums/seattle");
      (* Group stage and match information *)
      (lit "grupo-d",
       lit "https://fifa.com/en/tournaments/mens/worldcup/canadamexicousa2026/groups");
      (lit "phase-groups",
       lit "https://fifa.com/en/tournaments/mens/worldcup/canadamexicousa2026/groups");
      (* Ticket information *)
      (lit "tickets",
       lit "https://fifa.com/en/tournaments/mens/worldcup/canadamexicousa2026/tickets");
      (lit "ticketing",
       lit "https://fifa.com/en/tournaments/mens/worldcup/canadamexicousa2026/tickets");
      (* General tournament info *)
      (lit "world-cup-2026",
       lit "https://fifa.com/en/tournaments/mens/worldcup/canadamexicousa2026");
      (lit "canada-mexico-usa",
       lit "https://fifa.com/en/tournaments/mens/worldcup/canadamexicousa2026") ].

(** [urlMappings[key]].  Reading a property the object lacks yields
    [undefined] in JavaScript and the empty string here; the classifier
    only reads keys of the literal ([urlMappings_keys_read] below). *)
Definition urlMappings_at (key : jsstring) : jsstring := urlMappings !!! key.

(** The keyword [los ángeles]: the accented letter is U+00E1. *)
Definition los_angeles_accent : jsstring := lit "los " ++ [225] ++ lit "ngeles".

Section Classifier.

(** [String.prototype.toLowerCase], a built-in of the runtime. *)
Variable toLowerCase : jsstring -> jsstring.

Definition convertToRealFIFAUrl (docId content : jsstring) : jsstring :=
  (* Analyze content to determine the most appropriate URL *)
  let contentLower := toLowerCase content in
  (* Stadium-specific mappings *)
  if includes contentLower (lit "estadio azteca") || includes contentLower (lit "87,523")
     || includes contentLower (lit "mexico city")
  then urlMappings_at (lit "estadio-azteca")
  else if includes contentLower (lit "estadio akron") || includes contentLower (lit "49,813")
     || includes contentLower (lit "guadalajara")
  then urlMappings_at (lit "estadio-akron")
  else if includes contentLower (lit "estadio bbva") || includes contentLower (lit "53,500")
     || includes contentLower (lit "monterrey")
  then urlMappings_at (lit "estadio-bbva")
  else if includes contentLower (lit "sofi stadium") || includes contentLower los_angeles_accent
     || includes contentLower (lit "los angeles")
  then urlMappings_at (lit "sofi-stadium")
  else if includes contentLower (lit "lumen field") || includes contentLower (lit "seattle")
  then urlMappings_at (lit "lumen-field")
  (* Group and match information *)
  else if includes contentLower (lit "grupo d") || includes contentLower (lit "group d")
  then urlMappings_at (lit "grupo-d")
  else if includes contentLower (lit "fase de grupos") || includes contentLower (lit "group stage")
  then urlMappings_at (lit "phase-groups")
  (* Ticket information *)
  else if includes contentLower (lit "ticket") || includes contentLower (lit "precio")
     || includes contentLower (lit "price") || includes contentLower (lit "usd")
  then urlMappings_at (lit "tickets")
  (* Stadium capacity general *)
  else if includes contentLower (lit "stadium") || includes contentLower (lit "estadio")
     || includes contentLower (lit "capacity") || includes contentLower (lit "capacidad")
  then lit "https://fifa.com/en/tournaments/mens/worldcup/canadamexicousa2026/stadiums"
  (* Default to main tournament page *)
  else urlMappings_at (lit "world-cup-2026").

End Classifier.

(** *** The classifier as a priority table

    The reading of section 4.3 of the specification: an ordered list of
    rules, each a set of keywords with a target URL, evaluated in
    sequence on the lower-cased content; the first rule with a keyword
    occurring in the content decides, and a default is used when none
    does. *)

Record Rule := { keywords : list jsstring; target : jsstring }.

Definition TOURNAMENT : jsstring :=
  lit "https://fifa.com/en/tournaments/mens/worldcup/canadamexicousa2026".
Definition STADIUMS : jsstring := TOURNAMENT ++ lit "/stadiums".
Definition GROUPS : jsstring := TOURNAMENT ++ lit "/groups".
Definition TICKETS : jsstring := TOURNAMENT ++ lit "/tickets".
Definition MEXICO_CITY : jsstring := STADIUMS ++ lit "/mexico-city".
Definition GUADALAJARA : jsstring := STADIUMS ++ lit "/guadalajara".
Definition MONTERREY : jsstring := STADIUMS ++ lit "/monterrey".
Definition LOS_ANGELES : jsstring := STADIUMS ++ lit "/los-angeles".
Definition SEATTLE : jsstring := STADIUMS ++ lit "/seattle".

Definition venueRules : list Rule :=
  [ {| keywords := [lit "estadio azteca"; lit "87,523"; lit "mexico city"];
       target := MEXICO_CITY |};
    {| keywords := [lit "estadio akron"; lit "49,813"; lit "guadalajara"];
       target := GUADALAJARA |};
    {| keywords := [lit "estadio bbva"; lit "53,500"; lit "monterrey"];
       target := MONTERREY |};
    {| keywords := [lit "sofi stadium"; los_angeles_accent; lit "los angeles"];
       target := LOS_ANGELES |};
    {| keywords := [lit "lumen field"; lit "seattle"]; target := SEATTLE |} ].

Definition groupRules : list Rule :=
  [ {| keywords := [lit "grupo d"; lit "group d"]; target := GROUPS |};
    {| keywords := [lit "fase de grupos"; lit "group stage"]; target := GROUPS |} ].

Definition ticketRules : list Rule :=
  [ {| keywords := [lit "ticket"; lit "precio"; lit "price"; lit "usd"];
       target := TICKETS |} ].

Definition stadiumRules : list Rule :=
  [ {| keywords := [lit "stadium"; lit "estadio"; lit "capacity"; lit "capacidad"];
       target := STADIUMS |} ].

Definition priorityRules : list Rule :=
  venueRules ++ groupRules ++ ticketRules ++ stadiumRules.

Definition ruleMatches (contentLower : jsstring) (r : Rule) : bool :=
  existsb (includes contentLower) (keywords r).

Fixpoint firstMatch (rules : list Rule) (default : jsstring)
    (contentLower : jsstring) : jsstring :=
  match rules with
  | [] => default
  | r :: rest =>
      if ruleMatches contentLower r then target r
      else firstMatch rest default contentLower
  end.

(** The URLs the classifier can return. *)
Definition classifierUrls : list jsstring :=
  [ MEXICO_CITY; GUADALAJARA; MONTERREY; LOS_ANGELES; SEATTLE;
    GROUPS; TICKETS; STADIUMS; TOURNAMENT ].

Definition venueUrls : list jsstring :=
  [ MEXICO_CITY; GUADALAJARA; MONTERREY; LOS_ANGELES; SEATTLE ].

(** ** Data model of the route *)

(** A JavaScript number is a binary64 float. *)
Definition number := float.

(** [interface RAGDocument] *)
Record RAGDocument := {
  url : jsstring;
  title : jsstring;
  content : jsstring;
  fetched_at : jsstring;
  score : option number
}.

(** [interface RAGResponse] *)
Record RAGResponse := {
  documents : list RAGDocument;
  has_results : bool;
  query_id : option jsstring
}.

(** One element of [ragResults.results] as the RAG API sends it.  The
    orchestrator reads [id], [score], [text] and [metadata.text]; [None]
    is an absent ([undefined] or [null]) property.  [result_other]
    stands for every further property of the object. *)
Record RawMetadata := { metadata_text : option jsstring }.

Record RawResult := {
  result_id : jsstring;
  result_score : option number;
  result_text : option jsstring;
  result_metadata : option RawMetadata;
  result_other : list (jsstring * jsstring)
}.

(** The JSON body of the RAG API's answer. *)
Record RagResults := {
  total_found : option number;
  results : option (list RawResult)
}.

(** The body of the search request ([ragRequest]). *)
Record RagRequest := {
  rag_query : jsstring;
  limit : N;
  score_threshold : number
}.

(** What [fetch] resolves to.  [response_json] is [None] when
    [response.json()] rejects or yields [null]. *)
Record FetchResponse := {
  status : N;
  statusText : jsstring;
  response_json : option RagResults
}.

(** [response.ok]: the status is in the range 200-299. *)
Definition response_ok (r : FetchResponse) : bool :=
  (200 <=? status r) && (status r <=? 299).

(** [UIMessage] and its parts, as far as the handler reads them. *)
Record Part := { part_type : jsstring; part_text : option jsstring }.
Record UIMessage := { role : jsstring; parts : option (list Part) }.

(** The request: [req.json()] rejects, or yields [null] whose
    destructuring throws ([None]), or yields an object whose [messages]
    property is an array or is missing. *)
Record ChatBody := { messages : option (list UIMessage) }.
Record Request := { req_json : option ChatBody }.

(** The argument of [streamText]. *)
Record StreamTextArgs := {
  model : jsstring;
  system : option jsstring;
  model_messages : list UIMessage
}.

(** The handler's answer: the UI message stream of a completion call
    (status 200), or a plain-text response. *)
Inductive HttpResponse :=
  | UIMessageStreamResponse (args : StreamTextArgs)
  | PlainResponse (body : jsstring) (code : N).

Definition response_status (r : HttpResponse) : N :=
  match r with
  | UIMessageStreamResponse _ => 200
  | PlainResponse _ code => code
  end.

(** ** Effects

    The handler talks to three services and reads the clock.  A run
    threads the list of calls made so far and the number of clock
    readings; a computation returns a value or throws. *)

Inductive CatchSite := EmbeddingCatch | RagCatch | ChatCatch.

Inductive Event :=
  | EvEmbed (embed_model value : jsstring)
  | EvFetch (target_url : jsstring) (request : RagRequest)
  | EvStreamText (args : StreamTextArgs)
  | EvConsoleError (site : CatchSite).

(** The collaborators: the embedding service, the RAG API behind
    [fetch], the completion service ([streamText] on the converted
    messages followed by [toUIMessageStreamResponse]; [false] when the
    call throws), the clock and the string built-in. *)
Record Services := {
  toLowerCase : jsstring -> jsstring;
  embed : jsstring -> jsstring -> option (list number);
  fetch : jsstring -> RagRequest -> option FetchResponse;
  streamText : StreamTextArgs -> bool;
  toISOString : nat -> jsstring
}.

Record World := { trace : list Event; clock : nat }.

Definition initial : World := {| trace := []; clock := 0 |}.

Inductive Completion (A : Type) :=
  | Normal (a : A)
  | Throw.
Arguments Normal {A} a.
Arguments Throw {A}.

Definition M (A : Type) : Type := World -> Completion A * World.

Definition ret {A} (a : A) : M A := fun w => (Normal a, w).

Definition throw {A} : M A := fun w => (Throw, w).

Definition bind {A B} (m : M A) (k : A -> M B) : M B :=
  fun w =>
    match m w with
    | (Normal a, w') => k a w'
    | (Throw, w') => (Throw, w')
    end.

(** [try { m } catch (e) { h }] *)
Definition try_catch {A} (m h : M A) : M A :=
  fun w =>
    match m w with
    | (Normal a, w') => (Normal a, w')
    | (Throw, w') => h w'
    end.

Notation "'do' x <- m ; k" := (bind m (fun x => k))
  (at level 10, x name, m at level 100, k at level 200).

Definition emit (e : Event) : M unit :=
  fun w => (Normal tt, {| trace := trace w ++ [e]; clock := clock w |}).

(** A value that may be missing where the code dereferences it. *)
Definition must {A} (o : option A) : M A :=
  match o with
  | Some a => ret a
  | None => throw
  end.

Fixpoint mapiM_from {A B} (k : nat) (f : A -> nat -> M B) (l : list A) : M (list B) :=
  match l with
  | [] => ret []
  | x :: l' =>
      do y <- f x k;
      do ys <- mapiM_from (S k) f l';
      ret (y :: ys)
  end.

Definition mapiM {A B} (f : A -> nat -> M B) (l : list A) : M (list B) :=
  mapiM_from 0 f l.

(** ** The prompt assembler *)

(** No-Answer Policy (PRD requirement) *)
Definition NO_ANSWER_SENTENCE : jsstring :=
  lit "I don't know based on current fifa.com content I have indexed.".

Definition buildNoAnswerPrompt : jsstring :=
  lit "You must respond with exactly this message:" ++ NL ++
  NL ++
  DQ ++ NO_ANSWER_SENTENCE ++ DQ ++ NL ++
  NL ++
  lit "Then suggest the user visit fifa.com directly for the most current information about FIFA events and tickets.".

(** The template literal of one source block. *)
Definition sourceBlock (doc : RAGDocument) (index : nat) : jsstring :=
  lit "[Source " ++ numberToString (index + 1) ++ lit "] " ++ title doc ++ NL ++
  lit "Content: " ++ content doc ++ NL ++
  lit "URL: " ++ url doc ++ NL ++
  lit "Last indexed: " ++ fetched_at doc.

Definition SEPARATOR : jsstring := NL ++ NL ++ lit "---" ++ NL ++ NL.

(** Context Builder from RAG Sources *)
Definition buildContextFromSources (documents : list RAGDocument) : jsstring :=
  let contextParts := mapi sourceBlock documents in
  join SEPARATOR contextParts.

(** The text of the citation template before [${context}] and between
    [${context}] and [${userQuery}]. *)
Definition PROMPT_HEAD : jsstring :=
  lit "You are a FIFA.com assistant chatbot. Your role is to help visitors find accurate information about FIFA events, tickets, and official content." ++ NL ++
  NL ++
  lit "STRICT GUIDELINES:" ++ NL ++
  lit "- Answer ONLY based on the retrieved FIFA.com content provided below" ++ NL ++
  lit "- Always include citations and sources for your answers" ++ NL ++
  lit "- If the context doesn't fully answer the question, acknowledge this and provide what information you can" ++ NL ++
  lit "- Focus on ticket sales, World Cup information, FIFA events, and official policies" ++ NL ++
  lit "- Maintain a helpful, professional tone" ++ NL ++
  lit "- Provide specific details when available (dates, prices, procedures)" ++ NL ++
  lit "- Never hallucinate or provide information not found in the retrieved context" ++ NL ++
  NL ++
  lit "DOMAIN RESTRICTION:" ++ NL ++
  lit "- Only reference content from fifa.com/en and its subpages" ++ NL ++
  lit "- Do not provide information from other sources or your training data" ++ NL ++
  NL ++
  lit "RETRIEVED CONTEXT FROM FIFA.COM:" ++ NL.

Definition PROMPT_QUESTION : jsstring :=
  NL ++
  NL ++
  lit "Based on this FIFA.com content, please answer the user's question: " ++ DQ.

(** System Prompt Builder *)
Definition buildSystemPrompt (ragResponse : option RAGResponse)
    (userQuery : jsstring) : jsstring :=
  match ragResponse with
  | None => buildNoAnswerPrompt
  | Some ragResponse =>
      if negb (has_results ragResponse)
         || negb (0 <? length (documents ragResponse))%nat
      then
        (* No-Answer Policy (PRD requirement) *)
        buildNoAnswerPrompt
      else
        let context := buildContextFromSources (documents ragResponse) in
        PROMPT_HEAD ++ context ++ PROMPT_QUESTION ++ userQuery ++ DQ
  end.

(** ** The retrieval orchestrator and the handler *)

Section Route.

Variable svc : Services.

(** [new Date().toISOString()] *)
Definition dateNow : M jsstring :=
  fun w => (Normal (toISOString svc (clock w)),
            {| trace := trace w; clock := S (clock w) |}).

(** [await embed({ model, value })]; also throws when the answer has no
    [embedding], at [queryEmbedding.length]. *)
Definition callEmbed (embed_model value : jsstring) : M (list number) :=
  do _ <- emit (EvEmbed embed_model value);
  must (embed svc embed_model value).

Definition callFetch (target_url : jsstring) (request : RagRequest) : M FetchResponse :=
  do _ <- emit (EvFetch target_url request);
  must (fetch svc target_url request).

(** [streamText({...}).toUIMessageStreamResponse()] with the messages
    converted by [convertToModelMessages].  The event records that the
    handler reached this expression, an attempt of the completion call:
    the outcome [false] stands for a throw anywhere in it, also in the
    conversion of the messages, where no request has been sent yet. *)
Definition callStreamText (args : StreamTextArgs) : M HttpResponse :=
  do _ <- emit (EvStreamText args);
  if streamText svc args then ret (UIMessageStreamResponse args) else throw.

Definition consoleError (site : CatchSite) : M unit := emit (EvConsoleError site).

(** [a || b] on strings that may be absent. *)
Definition orElse (a : option jsstring) (b : option jsstring) : option jsstring :=
  match a with
  | Some s => if truthy s then Some s else b
  | None => b
  end.

(** The callback of [ragResults.results?.map]. *)
Definition toDocument (result : RawResult) (index : nat) : M RAGDocument :=
  do now <- dateNow;
  ret {| url := convertToRealFIFAUrl (toLowerCase svc) (result_id result)
                  (default [] (orElse (result_text result) (Some [])));
         title := lit "FIFA Document " ++ numberToString (index + 1);
         content :=
           default []
             (orElse (result_text result)
                (orElse (result_metadata result ≫= metadata_text)
                   (Some (lit "No content available"))));
         fetched_at := now;
         score := result_score result |}.

Definition RAG_API_URL : jsstring := lit "http://localhost:8000".

(** RAG System Query Function *)
Definition queryRAGSystem (embedding : list number) (query : jsstring)
    : M (option RAGResponse) :=
  try_catch
    (let ragRequest :=
       {| rag_query := query; limit := 5; score_threshold := 0.3%float |} in
     do response <- callFetch (RAG_API_URL ++ lit "/search") ragRequest;
     if negb (response_ok response) then throw
     else
       do ragResults <- must (response_json response);
       (* Transform RAG API response to our RAGResponse format *)
       do documents <-
         match results ragResults with
         | Some rs => mapiM toDocument rs
         | None => ret []
         end;
       let ragResponse :=
         {| documents := documents;
            has_results := (0 <? length documents)%nat;
            query_id := None |} in
       ret (Some ragResponse))
    (do _ <- consoleError RagCatch;
     ret None (* Graceful degradation *)).

(** The text of the last message: the [text] of its parts of type
    [text], joined by a space.  [join] prints a missing text as the
    empty string. *)
Definition extractQuery (messages : list UIMessage) : jsstring :=
  match last messages ≫= parts with
  | Some ps =>
      let textParts :=
        map part_text (filter (fun part => part_type part = lit "text") ps) in
      join (lit " ") (map (default []) textParts)
  | None => []
  end.

Definition POST (req : Request) : M HttpResponse :=
  try_catch
    (do body <- must (req_json req);
     (* [messages.length] throws when there is no [messages] *)
     do messages <- must (messages body);
     (* Get the last user message for embedding *)
     let userQuery := extractQuery messages in
     (* PROMPT EMBEDDING: Generate embedding for the user query *)
     do returned <-
       (if truthy (trim userQuery) then
          try_catch
            (do queryEmbedding <- callEmbed (lit "openai/text-embedding-3-small") userQuery;
             (* Query RAG system with embedding *)
             do ragResponse <- queryRAGSystem queryEmbedding userQuery;
             (* Build system prompt based on RAG results *)
             let systemPrompt := buildSystemPrompt ragResponse userQuery in
             (* Generate response with RAG context *)
             do response <-
               callStreamText {| model := lit "openai/gpt-4o-mini";
                                 system := Some systemPrompt;
                                 model_messages := messages |};
             ret (Some response))
            (do _ <- consoleError EmbeddingCatch;
             (* Continue with normal chat even if embedding fails *)
             ret None)
        else ret None);
     match returned with
     | Some response => ret response
     | None =>
         (* Fallback: Generate normal chat response without RAG *)
         callStreamText {| model := lit "gpt-5";
                           system := None;
                           model_messages := messages |}
     end)
    (do _ <- consoleError ChatCatch;
     ret (PlainResponse (lit "Internal Server Error") 500)).

End Route.

(** ** Auxiliary definitions for the statements *)

(** The document the orchestrator builds from the [index]-th result
    when the clock reading is the [tick]-th one. *)
Definition documentAt (svc : Services) (result : RawResult) (index tick : nat)
    : RAGDocument :=
  {| url := convertToRealFIFAUrl (toLowerCase svc) (result_id result)
              (default [] (orElse (result_text result) (Some [])));
     title := lit "FIFA Document " ++ numberToString (index + 1);
     content :=
       default []
         (orElse (result_text result)
            (orElse (result_metadata result ≫= metadata_text)
               (Some (lit "No content available"))));
     fetched_at := toISOString svc tick;
     score := result_score result |}.

Fixpoint documentsFrom (svc : Services) (index tick : nat) (rs : list RawResult)
    : list RAGDocument :=
  match rs with
  | [] => []
  | result :: rs' =>
      documentAt svc result index tick :: documentsFrom svc (S index) (S tick) rs'
  end.

(** Decimal numerals, to read a printed number back: [digits] is the
    numeral of [n] when it consists of decimal digits, denotes [n] and
    has no leading zero. *)
Definition isDecimalDigit (c : N) : bool := (48 <=? c) && (c <=? 57).

Definition decimalValue (digits : jsstring) : nat :=
  fold_left (fun value c => 10 * value + (N.to_nat c - 48))%nat digits 0%nat.

Definition isNumeral (digits : jsstring) (n : nat) : Prop :=
  digits <> []
  /\ forallb isDecimalDigit digits = true
  /\ decimalValue digits = n
  /\ (n <> 0%nat -> head digits <> Some 48).

(** The text of the [i]-th element of a sequence written with [sep]
    between neighbours: every element but the first is preceded by
    [sep]. *)
Definition afterSeparator (sep : jsstring) (i : nat) (element : jsstring) : jsstring :=
  match i with
  | O => element
  | S _ => sep ++ element
  end.

(** A world after further calls, and after further clock readings. *)
Definition logged (w : World) (events : list Event) : World :=
  {| trace := trace w ++ events; clock := clock w |}.

Definition ticked (w : World) (ticks : nat) : World :=
  {| trace := trace w; clock := clock w + ticks |}.

(** The search request of [queryRAGSystem]. *)
Definition searchUrl : jsstring := RAG_API_URL ++ lit "/search".

Definition searchRequest (query : jsstring) : RagRequest :=
  {| rag_query := query; limit := 5; score_threshold := 0.3%float |}.

(** The outcome of the orchestrator, by cases on what the fetcher did. *)
Definition retrieval (svc : Services) (query : jsstring) (w : World)
    : option RAGResponse * World :=
  let call := EvFetch searchUrl (searchRequest query) in
  match fetch svc searchUrl (searchRequest query) with
  | Some response =>
      if response_ok response then
        match response_json response with
        | Some ragResults =>
            let rs := default [] (results ragResults) in
            let docs := documentsFrom svc 0 (clock w) rs in
            (Some {| documents := docs;
                     has_results := (0 <? length docs)%nat;
                     query_id := None |},
             ticked (logged w [call]) (length rs))
        | None => (None, logged w [call; EvConsoleError RagCatch])
        end
      else (None, logged w [call; EvConsoleError RagCatch])
  | None => (None, logged w [call; EvConsoleError RagCatch])
  end.

(** The two completion calls of the handler. *)
Definition ragArgs (systemPrompt : jsstring) (ms : list UIMessage) : StreamTextArgs :=
  {| model := lit "openai/gpt-4o-mini";
     system := Some systemPrompt;
     model_messages := ms |}.

Definition fallbackArgs (ms : list UIMessage) : StreamTextArgs :=
  {| model := lit "gpt-5"; system := None; model_messages := ms |}.

Definition EMBEDDING_MODEL : jsstring := lit "openai/text-embedding-3-small".

Definition internalServerError : HttpResponse :=
  PlainResponse (lit "Internal Server Error") 500.

(** What the handler does from the fallback call on. *)
Definition fallbackOutcome (svc : Services) (ms : list UIMessage) (w : World)
    : Completion HttpResponse * World :=
  if streamText svc (fallbackArgs ms)
  then (Normal (UIMessageStreamResponse (fallbackArgs ms)),
        logged w [EvStreamText (fallbackArgs ms)])
  else (Normal internalServerError,
        logged w [EvStreamText (fallbackArgs ms); EvConsoleError ChatCatch]).

(** What the handler does once the system prompt is built. *)
Definition promptedOutcome (svc : Services) (systemPrompt : jsstring)
    (ms : list UIMessage) (w : World) : Completion HttpResponse * World :=
  if streamText svc (ragArgs systemPrompt ms)
  then (Normal (UIMessageStreamResponse (ragArgs systemPrompt ms)),
        logged w [EvStreamText (ragArgs systemPrompt ms)])
  else fallbackOutcome svc ms
         (logged w [EvStreamText (ragArgs systemPrompt ms);
                    EvConsoleError EmbeddingCatch]).

(** The outcome of the handler on a body with a [messages] array. *)
Definition handled (svc : Services) (ms : list UIMessage) (w : World)
    : Completion HttpResponse * World :=
  let userQuery := extractQuery ms in
  if truthy (trim userQuery) then
    match embed svc EMBEDDING_MODEL userQuery with
    | Some _ =>
        let r := retrieval svc userQuery (logged w [EvEmbed EMBEDDING_MODEL userQuery]) in
        promptedOutcome svc (buildSystemPrompt r.1 userQuery) ms r.2
    | None =>
        fallbackOutcome svc ms
          (logged w [EvEmbed EMBEDDING_MODEL userQuery; EvConsoleError EmbeddingCatch])
    end
  else fallbackOutcome svc ms w.

(** The fetcher failed: the network call rejected, or the status is
    outside 200-299. *)
Definition fetchFailed (svc : Services) (query : jsstring) : Prop :=
  match fetch svc searchUrl (searchRequest query) with
  | None => True
  | Some response => response_ok response = false
  end.

(** *** Sample collaborators and requests *)

Definition textPart (s : jsstring) : Part :=
  {| part_type := lit "text"; part_text := Some s |}.

Definition userMessage (ps : list Part) : UIMessage :=
  {| role := lit "user"; parts := Some ps |}.

Definition chatRequest (ms : list UIMessage) : Request :=
  {| req_json := Some {| messages := Some ms |} |}.

Definition sampleClock (n : nat) : jsstring :=
  lit "2025-06-01T12:00:0" ++ numberToString n ++ lit ".000Z".

(** Every service answers; the RAG API finds one document. *)
Definition ticketResult : RawResult :=
  {| result_id := lit "doc-17";
     result_score := Some 0.5%float;
     result_text := Some (lit "Ticket prices start at 60 USD");
     result_metadata := None;
     result_other := [(lit "fetched_at", lit "1999-01-01T00:00:00.000Z")] |}.

Definition bareResult : RawResult :=
  {| result_id := lit "doc-18";
     result_score := None;
     result_text := None;
     result_metadata := Some {| metadata_text := Some [] |};
     result_other := [] |}.

Definition servicesUp (rs : option (list RawResult)) : Services :=
  {| toLowerCase := asciiToLowerCase;
     embed := fun _ _ => Some [0.25%float; 0.5%float];
     fetch := fun _ _ =>
       Some {| status := 200; statusText := lit "OK";
               response_json := Some {| total_found := None; results := rs |} |};
     streamText := fun _ => true;
     toISOString := sampleClock |}.

(** The RAG API is unreachable. *)
Definition servicesFetchDown : Services :=
  {| toLowerCase := asciiToLowerCase;
     embed := fun _ _ => Some [0.25%float; 0.5%float];
     fetch := fun _ _ => None;
     streamText := fun _ => true;
     toISOString := sampleClock |}.

(** The embedding service is unreachable. *)
Definition servicesEmbedDown : Services :=
  {| toLowerCase := asciiToLowerCase;
     embed := fun _ _ => None;
     fetch := fun _ _ => None;
     streamText := fun _ => true;
     toISOString := sampleClock |}.

Definition sampleMessages : list UIMessage :=
  [ userMessage [textPart (lit "What are ticket prices?")] ].

Definition sampleQuery : jsstring := lit "What are ticket prices?".

(** The system prompt for [sampleQuery] over the documents built from
    [ticketResult] and [bareResult] at the first two clock readings. *)
Definition sampleCitationPrompt : jsstring :=
  PROMPT_HEAD ++
  lit "[Source 1] FIFA Document 1" ++ NL ++
  lit "Content: Ticket prices start at 60 USD" ++ NL ++
  lit "URL: https://fifa.com/en/tournaments/mens/worldcup/canadamexicousa2026/tickets" ++ NL ++
  lit "Last indexed: 2025-06-01T12:00:00.000Z" ++ NL ++
  NL ++
  lit "---" ++ NL ++
  NL ++
  lit "[Source 2] FIFA Document 2" ++ NL ++
  lit "Content: No content available" ++ NL ++
  lit "URL: https://fifa.com/en/tournaments/mens/worldcup/canadamexicousa2026" ++ NL ++
  lit "Last indexed: 2025-06-01T12:00:01.000Z" ++ NL ++
  NL ++
  lit "Based on this FIFA.com content, please answer the user's question: " ++
  DQ ++ lit "What are ticket prices?" ++ DQ.

Definition sampleDocument (n : jsstring) : RAGDocument :=
  {| url := lit "https://fifa.com/en/" ++ n;
     title := lit "Title " ++ n;
     content := lit "Content " ++ n;
     fetched_at := lit "2025-06-0" ++ n;
     score := None |}.

(** ** Further code of the repository *)

(** *** The first version of the handler

    The second listing of route.ts: the embedding of the query is
    generated and logged, and the chat response is the plain one. *)

Module EmbedOnly.

Definition POST (svc : Services) (req : Request) : M HttpResponse :=
  try_catch
    (do body <- must (req_json req);
     (* [messages.length] throws when there is no [messages] *)
     do messages <- must (messages body);
     (* Get the last user message for embedding *)
     let userQuery := extractQuery messages in
     (* PROMPT EMBEDDING: Generate embedding for the user query *)
     do _ <-
       (if truthy (trim userQuery) then
          try_catch
            (do queryEmbedding <- callEmbed svc (lit "openai/text-embedding-3-small") userQuery;
             (* For now, we just log it and continue with normal chat *)
             ret tt)
            ((* Continue with normal chat even if embedding fails *)
             consoleError EmbeddingCatch)
        else ret tt);
     (* Generate normal chat response *)
     callStreamText svc {| model := lit "gpt-5";
                           system := None;
                           model_messages := messages |})
    (do _ <- consoleError ChatCatch;
     ret (PlainResponse (lit "Internal Server Error") 500)).

End EmbedOnly.

(** *** Provenance hashing and citation lines

    [hashContent] and [formatCitations] of the variant of the route
    that logs provenance. *)

Module Provenance.

Local Open Scope Z_scope.

(** ToInt32 of an integral number. *)
Definition toInt32 (x : Z) : Z := (x + 2147483648) mod 4294967296 - 2147483648.

(** One turn of the loop: [hash = ((hash << 5) - hash) + char] and then
    [hash = hash & hash].  The operands of [<<] and [&] are converted
    to 32-bit integers; [-] and [+] are exact on numbers of this size. *)
Definition hashStep (hash : Z) (char : N) : Z :=
  let hash := (toInt32 (Z.shiftl (toInt32 hash) 5) - hash) + Z.of_N char in
  Z.land (toInt32 hash) (toInt32 hash).

(** The value of [hash] after the loop over [content.charCodeAt(i)]. *)
Definition hashCode (content : jsstring) : Z := fold_left hashStep content 0.

(** A hexadecimal digit, lower case. *)
Definition hexUnit (d : Z) : N :=
  if d <? 10 then Z.to_N (48 + d) else Z.to_N (87 + d).

Fixpoint hexDigits (fuel : nat) (n : Z) (acc : jsstring) : jsstring :=
  match fuel with
  | O => acc
  | S fuel' =>
      let acc' := hexUnit (n mod 16) :: acc in
      if n / 16 =? 0 then acc' else hexDigits fuel' (n / 16) acc'
  end.

(** [n.toString(16)] for an integer [n]: the digits of the magnitude,
    after a minus sign when [n] is negative. *)
Definition toString16 (n : Z) : jsstring :=
  let magnitude := Z.abs n in
  let digits := hexDigits (S (Z.to_nat (Z.log2 magnitude))) magnitude [] in
  if n <? 0 then lit "-" ++ digits else digits.

(** Simple hash function for content *)
Definition hashContent (content : jsstring) : jsstring :=
  toString16 (hashCode content).

(** The number a string of hexadecimal digits denotes, to read the
    output of [toString16] back. *)
Definition hexDigitValue (c : N) : Z :=
  if (c <? 58)%N then Z.of_N c - 48 else Z.of_N c - 87.

Definition hexValue (s : jsstring) : Z :=
  fold_left (fun value c => 16 * value + hexDigitValue c) s 0.

Definition isLowerHexDigit (c : N) : bool :=
  ((48 <=? c) && (c <=? 57) || (97 <=? c) && (c <=? 102))%N.

(** The polynomial the loop computes before wrap-around. *)
Definition polynomial31 (content : jsstring) : Z :=
  fold_left (fun value c => 31 * value + Z.of_N c) content 0.

Inductive DisplayMode := FULL_LINKS | COMPACT_LINE | HIDDEN.

Section Citations.

(** The date built-ins: [new Date(s).getTime()], [Math.max(...xs)] and
    [new Date(t).toLocaleDateString()]. *)
Variable getTime : jsstring -> number.
Variable mathMax : list number -> number.
Variable toLocaleDateString : number -> jsstring.

(** The bullet of the compact line is U+2022. *)
Definition lastIndexedLine (sources : list RAGDocument) : jsstring :=
  let latestDate := mathMax (map (fun s => getTime (fetched_at s)) sources) in
  lit "Verified from fifa.com " ++ [8226%N] ++ lit " Last indexed " ++
  toLocaleDateString latestDate.

(** Citation Formatter (for future widget use).  [sources] is [None]
    for a null argument, [displayMode] is [None] when the argument is
    left out. *)
Definition formatCitations (sources : option (list RAGDocument))
    (displayMode : option DisplayMode) : jsstring :=
  let displayMode := default COMPACT_LINE displayMode in
  match sources with
  | None => []
  | Some [] => []
  | Some sources =>
      match displayMode with
      | FULL_LINKS =>
          join (lit ", ")
            (map (fun s => lit "[" ++ title s ++ lit "](" ++ url s ++ lit ")") sources)
      | COMPACT_LINE => lastIndexedLine sources
      | HIDDEN => lastIndexedLine sources
      end
  end.

End Citations.

End Provenance.

(** *** The submit handler of the chat page *)

Module ChatUI.

(** What [handleSubmit] does to the page: the text handed to
    [sendMessage], if any, and the value of the input box afterwards. *)
Record Submitted := { sent : option jsstring; input_after : jsstring }.

Definition handleSubmit (input : jsstring) : Submitted :=
  if truthy (trim input)
  then {| sent := Some input; input_after := [] |}
  else {| sent := None; input_after := input |}.

(** The [disabled] attribute of the submit button. *)
Definition submitDisabled (input : jsstring) : bool := negb (truthy (trim input)).

End ChatUI.

(** *** Definitions for the statements *)

(** [k] occurs in [s]. *)
Definition occursIn (k s : jsstring) : Prop :=
  exists pre post, s = pre ++ k ++ post.

Definition keywordsOf (rules : list Rule) : list jsstring :=
  concat (map keywords rules).

(** The calls a run added to the trace. *)
Definition isEmbedCall (e : Event) : bool :=
  match e with EvEmbed _ _ => true | _ => false end.

Definition isFetchCall (e : Event) : bool :=
  match e with EvFetch _ _ => true | _ => false end.

(** * Properties *)

(** ** Strings *)

Lemma startsWith_app (k rest : jsstring) : startsWith (k ++ rest) k = true.
Proof.
  induction k as [|c k IH]; simpl.
  - reflexivity.
  - rewrite N.eqb_refl. exact IH.
Qed.

Lemma includes_here (s k : jsstring) : startsWith s k = true -> includes s k = true.
Proof. destruct s; simpl; intros ->; reflexivity. Qed.

Lemma includes_skip (pre s k : jsstring) :
  includes s k = true -> includes (pre ++ s) k = true.
Proof.
  intros H. induction pre as [|c pre IH]; simpl.
  - exact H.
  - rewrite IH. apply orb_true_r.
Qed.

(** A string occurs in every string built around it. *)
Lemma includes_infix (pre k post : jsstring) :
  includes (pre ++ k ++ post) k = true.
Proof. apply includes_skip, includes_here, startsWith_app. Qed.

Lemma startsWith_prefix (s p : jsstring) :
  startsWith s p = true <-> exists rest, s = p ++ rest.
Proof.
  split.
  - revert p. induction s as [|d s IH]; intros [|c p]; simpl; intros H.
    + exists []. reflexivity.
    + discriminate.
    + exists (d :: s). reflexivity.
    + apply andb_true_iff in H as [Hc Hp]. apply N.eqb_eq in Hc. subst d.
      destruct (IH _ Hp) as [rest ->]. exists rest. reflexivity.
  - intros [rest ->]. apply startsWith_app.
Qed.

Lemma join_cons (sep p : jsstring) (q : jsstring) (rest : list jsstring) :
  join sep (p :: q :: rest) = p ++ sep ++ join sep (q :: rest).
Proof. reflexivity. Qed.

Lemma mapi_from_length {A B} (f : A -> nat -> B) (l : list A) (k : nat) :
  length (mapi_from k f l) = length l.
Proof. revert k. induction l; simpl; intros; [reflexivity | f_equal; apply IHl]. Qed.

Lemma mapi_from_lookup {A B} (f : A -> nat -> B) (l : list A) (k i : nat) (x : A) :
  l !! i = Some x -> mapi_from k f l !! i = Some (f x (k + i)%nat).
Proof.
  revert k i. induction l as [|y l IH]; intros k [|i] H; simpl in *; try discriminate.
  - injection H as ->. f_equal. f_equal. lia.
  - rewrite (IH (S k) i H). f_equal. f_equal. lia.
Qed.

Lemma mapi_from_app {A B} (f : A -> nat -> B) (l1 l2 : list A) (k : nat) :
  mapi_from k f (l1 ++ l2) = mapi_from k f l1 ++ mapi_from (k + length l1) f l2.
Proof.
  revert k. induction l1 as [|x l1 IH]; intros k; simpl.
  - f_equal. lia.
  - rewrite IH. do 3 f_equal. lia.
Qed.

Lemma includes_app_l (s post k : jsstring) :
  includes s k = true -> includes (s ++ post) k = true.
Proof.
  revert post. induction s as [|c s IH]; intros post Hk.
  - destruct k; [|simpl in Hk; discriminate].
    destruct post; reflexivity.
  - simpl in Hk. apply orb_true_iff in Hk as [Hk|Hk].
    + apply includes_here.
      apply startsWith_prefix in Hk as [rest Hrest].
      apply startsWith_prefix. exists (rest ++ post).
      rewrite app_assoc, <- Hrest. reflexivity.
    + change ((c :: s) ++ post) with (c :: (s ++ post)). simpl.
      rewrite (IH post Hk). apply orb_true_r.
Qed.

(** A part of a joined string occurs in it. *)
Lemma includes_join (sep : jsstring) (parts : list jsstring) (p k : jsstring) :
  In p parts -> includes p k = true -> includes (join sep parts) k = true.
Proof.
  intros Hin Hk. induction parts as [|q parts IH]; [destruct Hin|].
  destruct parts as [|q' parts].
  - destruct Hin as [->|[]]. exact Hk.
  - rewrite join_cons. destruct Hin as [->|Hin].
    + apply includes_app_l, Hk.
    + rewrite app_assoc. apply includes_skip. apply IH. exact Hin.
Qed.

(** *** Numerals and separators *)

Lemma uint_units_digits (d : Decimal.uint) :
  forallb isDecimalDigit (uint_units d) = true.
Proof. induction d; cbn [uint_units forallb]; try reflexivity; exact IHd. Qed.

Lemma uint_units_value (d : Decimal.uint) (acc : nat) :
  fold_left (fun value c => 10 * value + (N.to_nat c - 48))%nat (uint_units d) acc
  = Nat.of_uint_acc d acc.
Proof.
  revert acc. induction d; intros acc; cbn [uint_units fold_left Nat.of_uint_acc];
    [reflexivity | rewrite IHd; f_equal; rewrite Nat.tail_mul_spec; cbn; lia ..].
Qed.

Lemma to_uint_normal (n : nat) : Decimal.unorm (Nat.to_uint n) = Nat.to_uint n.
Proof.
  rewrite <- (DecimalNat.Unsigned.of_to n) at 2.
  symmetry. apply DecimalNat.Unsigned.to_of.
Qed.

(** The printed index is the decimal numeral of the number. *)
Lemma numberToString_numeral (n : nat) : isNumeral (numberToString n) n.
Proof.
  unfold isNumeral, numberToString.
  pose proof (to_uint_normal n) as Hnorm.
  pose proof (DecimalNat.Unsigned.of_to n) as Hof.
  split; [|split; [apply uint_units_digits | split]].
  - pose proof (DecimalFacts.unorm_nonnil (Nat.to_uint n)) as Hnil.
    rewrite Hnorm in Hnil. destruct (Nat.to_uint n); [contradiction | discriminate ..].
  - unfold decimalValue. rewrite uint_units_value. exact Hof.
  - intros Hn. destruct (Nat.to_uint n) as [|d| | | | | | | | |] eqn:E;
      cbn [uint_units head]; try discriminate.
    exfalso.
    destruct (Decimal.uint_eq_dec (Decimal.nzhead (Decimal.D0 d)) Decimal.Nil)
      as [Hz|Hz].
    + apply DecimalFacts.unorm_0 in Hz. rewrite Hnorm in Hz. rewrite Hz in Hof.
      cbn in Hof. congruence.
    + apply DecimalFacts.unorm_nzhead in Hz. rewrite Hnorm in Hz.
      symmetry in Hz. exact (DecimalFacts.nzhead_nonzero _ _ Hz).
Qed.

Lemma join_tail (sep p : jsstring) (rest : list jsstring) :
  join sep (p :: rest)
  = p ++ match rest with [] => [] | _ :: _ => sep ++ join sep rest end.
Proof. destruct rest; [cbn; rewrite app_nil_r|]; reflexivity. Qed.

Lemma join_mapi_from_rest {A} (sep : jsstring) (f : A -> nat -> jsstring) (l : list A) :
  forall k,
    concat (imap (fun i x => sep ++ f x (k + i)%nat) l)
    = match l with [] => [] | _ :: _ => sep ++ join sep (mapi_from k f l) end.
Proof.
  induction l as [|x l IH]; intros k; [reflexivity|].
  rewrite imap_cons. cbn [concat mapi_from]. rewrite Nat.add_0_r, join_tail.
  rewrite (imap_ext _ (fun i x => sep ++ f x (S k + i)%nat))
    by (intros i y _; cbn; do 2 f_equal; lia).
  rewrite IH, <- app_assoc. destruct l; reflexivity.
Qed.

(** Joining writes the separator before every part but the first. *)
Lemma join_mapi_from {A} (sep : jsstring) (f : A -> nat -> jsstring) (l : list A) (k : nat) :
  join sep (mapi_from k f l)
  = concat (imap (fun i x => afterSeparator sep i (f x (k + i)%nat)) l).
Proof.
  destruct l as [|x l]; [reflexivity|].
  rewrite imap_cons. cbn [concat mapi_from afterSeparator]. rewrite Nat.add_0_r, join_tail.
  f_equal.
  rewrite (imap_ext _ (fun i x => sep ++ f x (S k + i)%nat))
    by (intros i y _; cbn; do 2 f_equal; lia).
  rewrite join_mapi_from_rest. destruct l; reflexivity.
Qed.

Lemma join_map {A} (sep : jsstring) (f : A -> jsstring) (l : list A) :
  join sep (map f l) = concat (imap (fun i x => afterSeparator sep i (f x)) l).
Proof.
  assert (H : forall k, map f l = mapi_from k (fun x _ => f x) l)
    by (induction l as [|x l IH]; intros k; [reflexivity | cbn; f_equal; apply IH]).
  rewrite (H 0%nat). apply join_mapi_from.
Qed.

(** ** The URL classifier *)

Lemma urlMappings_keys_read :
  urlMappings_at (lit "estadio-azteca") = MEXICO_CITY /\
  urlMappings_at (lit "estadio-akron") = GUADALAJARA /\
  urlMappings_at (lit "estadio-bbva") = MONTERREY /\
  urlMappings_at (lit "sofi-stadium") = LOS_ANGELES /\
  urlMappings_at (lit "lumen-field") = SEATTLE /\
  urlMappings_at (lit "grupo-d") = GROUPS /\
  urlMappings_at (lit "phase-groups") = GROUPS /\
  urlMappings_at (lit "tickets") = TICKETS /\
  urlMappings_at (lit "world-cup-2026") = TOURNAMENT.
Proof. vm_compute. repeat split. Qed.

Lemma stadiums_literal :
  lit "https://fifa.com/en/tournaments/mens/worldcup/canadamexicousa2026/stadiums"
  = STADIUMS.
Proof. vm_compute. reflexivity. Qed.

Ltac case_keywords :=
  repeat match goal with
         | |- context [includes ?s ?k] =>
             let b := fresh "b" in
             generalize (includes s k); intros b; destruct b; cbn [orb]; try reflexivity
         end.

(** The chain of conditionals is the first-match evaluation of the
    priority table. *)
Lemma convertToRealFIFAUrl_table (lower : jsstring -> jsstring) (docId content : jsstring) :
  convertToRealFIFAUrl lower docId content
  = firstMatch priorityRules TOURNAMENT (lower content).
Proof.
  unfold convertToRealFIFAUrl.
  destruct urlMappings_keys_read as (-> & -> & -> & -> & -> & -> & -> & -> & ->).
  rewrite stadiums_literal.
  cbv [priorityRules venueRules groupRules ticketRules stadiumRules app
       firstMatch ruleMatches existsb keywords target].
  cbv zeta.
  case_keywords.
Qed.

Section FirstMatch.

Variables (default : jsstring) (c : jsstring).

Lemma firstMatch_prefix (rs1 rs2 : list Rule) (other : jsstring) :
  existsb (ruleMatches c) rs1 = true ->
  firstMatch (rs1 ++ rs2) default c = firstMatch rs1 other c.
Proof.
  induction rs1 as [|r rs1 IH]; simpl; [discriminate|].
  destruct (ruleMatches c r); simpl; [reflexivity | exact IH].
Qed.

Lemma firstMatch_target (rs : list Rule) :
  existsb (ruleMatches c) rs = true ->
  In (firstMatch rs default c) (map target rs).
Proof.
  induction rs as [|r rs IH]; simpl; [discriminate|].
  destruct (ruleMatches c r); simpl; [left; reflexivity | right; auto].
Qed.

Lemma firstMatch_range (rs : list Rule) :
  In (firstMatch rs default c) (default :: map target rs).
Proof.
  induction rs as [|r rs IH]; simpl; [left; reflexivity|].
  destruct (ruleMatches c r); [right; left; reflexivity|].
  destruct IH as [IH|IH]; [left; exact IH | right; right; exact IH].
Qed.

(** First match wins. *)
Lemma firstMatch_first (pre post : list Rule) (r : Rule) :
  (forall r', In r' pre -> ruleMatches c r' = false) ->
  ruleMatches c r = true ->
  firstMatch (pre ++ r :: post) default c = target r.
Proof.
  intros Hpre Hr. induction pre as [|p pre IH]; simpl.
  - rewrite Hr. reflexivity.
  - rewrite (Hpre p (or_introl eq_refl)). apply IH.
    intros r' Hin. apply Hpre. right. exact Hin.
Qed.

End FirstMatch.

Lemma venue_rule_matches (c : jsstring) (r : Rule) :
  In r venueRules -> ruleMatches c r = true ->
  existsb (ruleMatches c) venueRules = true.
Proof.
  intros Hin Hr. apply existsb_exists. exists r. split; assumption.
Qed.

Lemma venueUrls_not_generic : ~ In STADIUMS venueUrls.
Proof.
  intros H. vm_compute in H.
  repeat (destruct H as [H|H]; [discriminate H|]). exact H.
Qed.

Lemma classifierUrls_prefix :
  Forall (fun u => startsWith u TOURNAMENT = true) classifierUrls.
Proof. repeat constructor. Qed.

(** C5: the classifier evaluates its keyword rules on the lower-cased
    content in the fixed order venues, groups, tickets, generic stadium
    and then the tournament page as default, and the first rule with a
    keyword in the content decides.  Content with a venue keyword gets
    the URL of the first venue rule that matches, a venue URL and never
    the generic stadiums URL, also when it contains [stadium].  Contents
    with the same lower-casing get the same URL. *)
Theorem convertToRealFIFAUrl_priority
    (lower : jsstring -> jsstring) (docId content : jsstring) :
  convertToRealFIFAUrl lower docId content
  = firstMatch (venueRules ++ groupRules ++ ticketRules ++ stadiumRules)
      TOURNAMENT (lower content)
  /\ (forall pre r post,
        venueRules ++ groupRules ++ ticketRules ++ stadiumRules = pre ++ r :: post ->
        (forall r', In r' pre -> ruleMatches (lower content) r' = false) ->
        ruleMatches (lower content) r = true ->
        convertToRealFIFAUrl lower docId content = target r)
  /\ (forall r,
        In r venueRules ->
        ruleMatches (lower content) r = true ->
        includes (lower content) (lit "stadium") = true ->
        convertToRealFIFAUrl lower docId content
        = firstMatch venueRules TOURNAMENT (lower content)
        /\ In (convertToRealFIFAUrl lower docId content) venueUrls
        /\ convertToRealFIFAUrl lower docId content <> STADIUMS)
  /\ (forall content',
        lower content' = lower content ->
        convertToRealFIFAUrl lower docId content'
        = convertToRealFIFAUrl lower docId content).
Proof.
  pose proof (convertToRealFIFAUrl_table lower docId content) as Htable.
  unfold priorityRules in Htable.
  split; [exact Htable|]. split; [|split].
  - intros pre r post Hsplit Hpre Hr. rewrite Htable, Hsplit.
    apply firstMatch_first; assumption.
  - intros r Hin Hr _.
    pose proof (venue_rule_matches _ _ Hin Hr) as Hvenue.
    rewrite Htable.
    rewrite (firstMatch_prefix TOURNAMENT _ venueRules _ TOURNAMENT Hvenue).
    split; [reflexivity|].
    pose proof (firstMatch_target TOURNAMENT _ venueRules Hvenue) as Hrange.
    change (map target venueRules) with venueUrls in Hrange.
    split; [exact Hrange|].
    intros Heq. rewrite Heq in Hrange. exact (venueUrls_not_generic Hrange).
  - intros content' Heq. rewrite !convertToRealFIFAUrl_table, Heq. reflexivity.
Qed.

Lemma convertToRealFIFAUrl_priority_witness :
  includes (asciiToLowerCase (lit "Tickets for SoFi Stadium in Los Angeles"))
    (lit "stadium") = true
  /\ includes (asciiToLowerCase (lit "Tickets for SoFi Stadium in Los Angeles"))
       (lit "ticket") = true
  /\ convertToRealFIFAUrl asciiToLowerCase (lit "doc-3")
       (lit "Tickets for SoFi Stadium in Los Angeles") = LOS_ANGELES.
Proof.
  split; [reflexivity|]. split; [reflexivity|].
  refine (proj1 (proj2 (convertToRealFIFAUrl_priority asciiToLowerCase (lit "doc-3")
            (lit "Tickets for SoFi Stadium in Los Angeles")))
          [_; _; _]
          {| keywords := [lit "sofi stadium"; los_angeles_accent; lit "los angeles"];
             target := LOS_ANGELES |}
          _ eq_refl _ _).
  - intros r' Hin. simpl in Hin.
    destruct Hin as [<-|[<-|[<-|[]]]]; vm_compute; reflexivity.
  - vm_compute. reflexivity.
Defined.

Lemma convertToRealFIFAUrl_in_range (lower : jsstring -> jsstring) (docId content : jsstring) :
  In (convertToRealFIFAUrl lower docId content) classifierUrls.
Proof.
  rewrite convertToRealFIFAUrl_table.
  pose proof (firstMatch_range TOURNAMENT (lower content) priorityRules) as H.
  vm_compute in H |- *.
  repeat (destruct H as [H|H]; [rewrite <- H; clear H; tauto|]).
  destruct H.
Qed.

(** Upper-case content, and the ticket scenario of the specification. *)
Example classify_upper_case :
  convertToRealFIFAUrl asciiToLowerCase (lit "doc-1") (lit "ESTADIO AZTECA, capacity 87,523")
  = MEXICO_CITY.
Proof. vm_compute. reflexivity. Qed.

Example classify_tickets :
  convertToRealFIFAUrl asciiToLowerCase (result_id ticketResult)
    (lit "Ticket prices start at 60 USD")
  = TICKETS.
Proof. vm_compute. reflexivity. Qed.

Example classify_default :
  convertToRealFIFAUrl asciiToLowerCase (lit "doc-9") (lit "Opening ceremony") = TOURNAMENT.
Proof. vm_compute. reflexivity. Qed.

(** ** Running the orchestrator *)

Lemma logged_logged (w : World) (e1 e2 : list Event) :
  logged (logged w e1) e2 = logged w (e1 ++ e2).
Proof. unfold logged. simpl. rewrite app_assoc. reflexivity. Qed.

Lemma mapiM_from_toDocument (svc : Services) (rs : list RawResult) (k : nat) (w : World) :
  mapiM_from k (toDocument svc) rs w
  = (Normal (documentsFrom svc k (clock w) rs), ticked w (length rs)).
Proof.
  revert k w. induction rs as [|result rs IH]; intros k w.
  - cbn. unfold ticked. destruct w as [t c]; simpl. rewrite Nat.add_0_r. reflexivity.
  - cbn [mapiM_from documentsFrom]. unfold bind at 1.
    unfold toDocument at 1. unfold bind at 1, dateNow at 1.
    cbn [ret]. unfold bind at 1. rewrite IH. cbn [clock ret].
    unfold ticked, documentAt, ret. cbn [trace clock length].
    replace (S (clock w) + length rs)%nat with (clock w + S (length rs))%nat by lia.
    reflexivity.
Qed.

Lemma documentsFrom_length (svc : Services) (rs : list RawResult) (k t : nat) :
  length (documentsFrom svc k t rs) = length rs.
Proof. revert k t. induction rs; simpl; intros; [reflexivity | f_equal; apply IHrs]. Qed.

Lemma documentsFrom_lookup (svc : Services) (rs : list RawResult) (k t i : nat)
    (result : RawResult) :
  rs !! i = Some result ->
  documentsFrom svc k t rs !! i = Some (documentAt svc result (k + i) (t + i)).
Proof.
  revert k t i. induction rs as [|r rs IH]; intros k t [|i] H; simpl in *; try discriminate.
  - injection H as ->. rewrite !Nat.add_0_r. reflexivity.
  - rewrite (IH (S k) (S t) i H).
    replace (S k + i)%nat with (k + S i)%nat by lia.
    replace (S t + i)%nat with (t + S i)%nat by lia. reflexivity.
Qed.

Lemma documentsFrom_In (svc : Services) (rs : list RawResult) (k t : nat) (d : RAGDocument) :
  In d (documentsFrom svc k t rs) ->
  exists i result, rs !! i = Some result /\ d = documentAt svc result (k + i) (t + i).
Proof.
  revert k t. induction rs as [|r rs IH]; intros k t Hin; simpl in Hin; [destruct Hin|].
  destruct Hin as [<-|Hin].
  - exists 0%nat, r. rewrite !Nat.add_0_r. split; reflexivity.
  - destruct (IH _ _ Hin) as (i & result & Hi & ->).
    exists (S i), result. split; [exact Hi|].
    replace (S k + i)%nat with (k + S i)%nat by lia.
    replace (S t + i)%nat with (t + S i)%nat by lia. reflexivity.
Qed.

Lemma queryRAGSystem_run (svc : Services) (embedding : list number)
    (query : jsstring) (w : World) :
  queryRAGSystem svc embedding query w
  = (Normal (retrieval svc query w).1, (retrieval svc query w).2).
Proof.
  unfold queryRAGSystem, retrieval, try_catch, callFetch, consoleError.
  unfold bind at 1. unfold bind at 1. unfold emit at 1, must at 1.
  change (RAG_API_URL ++ lit "/search") with searchUrl.
  change {| rag_query := query; limit := 5; score_threshold := 0.3%float |}
    with (searchRequest query).
  destruct (fetch svc searchUrl (searchRequest query)) as [response|]; cbn [ret throw];
    [|unfold bind, emit, ret, logged; simpl; rewrite <- app_assoc; reflexivity].
  destruct (response_ok response); cbn [negb];
    [|unfold throw, bind, emit, ret, logged; simpl; rewrite <- app_assoc; reflexivity].
  unfold bind at 1, must at 1.
  destruct (response_json response) as [ragResults|]; cbn [ret throw];
    [|unfold bind, emit, ret, logged; simpl; rewrite <- app_assoc; reflexivity].
  unfold bind at 1.
  destruct (results ragResults) as [rs|]; cbn [default].
  - unfold mapiM. rewrite mapiM_from_toDocument. reflexivity.
  - cbn. unfold ticked, logged. simpl. rewrite Nat.add_0_r. reflexivity.
Qed.

(** ** Running the handler *)

Lemma callStreamText_run (svc : Services) (args : StreamTextArgs) (w : World) :
  callStreamText svc args w
  = if streamText svc args
    then (Normal (UIMessageStreamResponse args), logged w [EvStreamText args])
    else (Throw, logged w [EvStreamText args]).
Proof.
  unfold callStreamText, bind, emit. destruct (streamText svc args); reflexivity.
Qed.

Lemma POST_malformed (svc : Services) (req : Request) (w : World) :
  (req_json req ≫= messages) = None ->
  POST svc req w = (Normal internalServerError, logged w [EvConsoleError ChatCatch]).
Proof.
  intros H. unfold POST, try_catch. unfold bind at 1.
  destruct (req_json req) as [body|]; cbn [must ret throw].
  - cbn in H. unfold bind at 1. rewrite H. reflexivity.
  - reflexivity.
Qed.

Lemma POST_run (svc : Services) (req : Request) (ms : list UIMessage) (w : World) :
  (req_json req ≫= messages) = Some ms ->
  POST svc req w = handled svc ms w.
Proof.
  intros H. unfold POST, handled, try_catch. unfold bind at 1.
  destruct (req_json req) as [body|]; [|discriminate H]. cbn in H.
  cbn [must ret]. unfold bind at 1. rewrite H. cbn [must ret].
  unfold bind at 1.
  destruct (truthy (trim (extractQuery ms))).
  - unfold try_catch. unfold bind at 1. unfold callEmbed. unfold bind at 1.
    unfold emit at 1. fold EMBEDDING_MODEL.
    destruct (embed svc EMBEDDING_MODEL (extractQuery ms)) as [e|]; cbn [must ret throw].
    + unfold bind at 1. rewrite queryRAGSystem_run.
      set (r := retrieval svc (extractQuery ms) _).
      change {| trace := trace w ++ [EvEmbed EMBEDDING_MODEL (extractQuery ms)];
                clock := clock w |}
        with (logged w [EvEmbed EMBEDDING_MODEL (extractQuery ms)]) in r.
      fold r. unfold bind at 1. rewrite callStreamText_run.
      fold (ragArgs (buildSystemPrompt r.1 (extractQuery ms)) ms).
      unfold promptedOutcome, fallbackOutcome.
      destruct (streamText svc (ragArgs _ ms)); cbn [ret].
      * reflexivity.
      * unfold consoleError, bind, emit, ret. rewrite callStreamText_run.
        fold (fallbackArgs ms).
        destruct (streamText svc (fallbackArgs ms));
          unfold logged; simpl; rewrite <- ?app_assoc; reflexivity.
    + unfold consoleError, bind, emit, ret. rewrite callStreamText_run.
      fold (fallbackArgs ms). unfold fallbackOutcome.
      destruct (streamText svc (fallbackArgs ms));
        unfold logged; simpl; rewrite <- ?app_assoc; reflexivity.
  - cbn [ret]. rewrite callStreamText_run. fold (fallbackArgs ms).
    unfold fallbackOutcome.
    destruct (streamText svc (fallbackArgs ms)); [reflexivity|].
    unfold consoleError, bind, emit, ret, logged. simpl.
    rewrite <- app_assoc. reflexivity.
Qed.

(** ** The prompt assembler *)

Ltac find_infix :=
  repeat first [ solve [apply includes_here, startsWith_app] | apply includes_skip ].

Lemma sourceBlock_includes (doc : RAGDocument) (index : nat) :
  includes (sourceBlock doc index) (title doc) = true
  /\ includes (sourceBlock doc index) (content doc) = true
  /\ includes (sourceBlock doc index) (url doc) = true
  /\ includes (sourceBlock doc index) (fetched_at doc) = true.
Proof.
  unfold sourceBlock. repeat split.
  - find_infix.
  - find_infix.
  - find_infix.
  - repeat apply includes_skip. apply includes_here.
    rewrite <- (app_nil_r (fetched_at doc)) at 1. apply startsWith_app.
Qed.

Lemma lookup_In {A} (l : list A) (i : nat) (x : A) : l !! i = Some x -> In x l.
Proof.
  revert i. induction l as [|y l IH]; intros [|i] H; simpl in *; try discriminate.
  - injection H as ->. left. reflexivity.
  - right. exact (IH i H).
Qed.

(** C1: on a null result, a result whose [has_results] is false or a
    result with an empty document list, and for every query, the prompt
    is the fixed no-answer prompt: the constant text below, which quotes
    the sentence the model has to reply with and asks to suggest a visit
    of fifa.com. *)
Theorem buildSystemPrompt_no_answer
    (ragResponse : option RAGResponse) (userQuery : jsstring) :
  match ragResponse with
  | None => True
  | Some r => has_results r = false \/ documents r = []
  end ->
  buildSystemPrompt ragResponse userQuery = buildNoAnswerPrompt
  /\ buildNoAnswerPrompt
     = lit "You must respond with exactly this message:" ++ NL ++ NL ++
       DQ ++ lit "I don't know based on current fifa.com content I have indexed." ++ DQ ++
       NL ++ NL ++
       lit "Then suggest the user visit fifa.com directly for the most current information about FIFA events and tickets."
  /\ includes buildNoAnswerPrompt
       (DQ ++ lit "I don't know based on current fifa.com content I have indexed." ++ DQ)
     = true
  /\ includes buildNoAnswerPrompt (lit "suggest the user visit fifa.com directly") = true.
Proof.
  intros H. split; [|split; [reflexivity | split; vm_compute; reflexivity]].
  destruct ragResponse as [r|]; [|reflexivity].
  unfold buildSystemPrompt. destruct H as [-> | ->]; [reflexivity|].
  rewrite orb_true_r. reflexivity.
Qed.

Lemma buildSystemPrompt_no_answer_witness :
  buildSystemPrompt
    (Some {| documents := [sampleDocument (lit "1")];
             has_results := false; query_id := None |})
    (lit "Who won in 1930?")
  = buildNoAnswerPrompt.
Proof.
  exact (proj1 (buildSystemPrompt_no_answer
                  (Some {| documents := [sampleDocument (lit "1")];
                           has_results := false; query_id := None |})
                  (lit "Who won in 1930?") (or_introl eq_refl))).
Defined.

(** C4: on a result with [has_results] true and a non-empty document
    list the prompt is the fixed template around the context and ends
    with the user query between double quotes.  The context is one
    block per document, in the order of the documents, every block but
    the first preceded by the separator (two line feeds, three dashes,
    two line feeds); the block of the document at index [i] starts with
    [[Source n]] where [n] is the decimal numeral of [i + 1], and holds
    the document's title, content, URL and fetched_at unchanged, so
    each of them occurs in the prompt.  The prompt depends on the
    documents and the query only. *)
Theorem buildSystemPrompt_citation (ragResponse : RAGResponse) (userQuery : jsstring) :
  has_results ragResponse = true ->
  documents ragResponse <> [] ->
  let docs := documents ragResponse in
  let prompt := buildSystemPrompt (Some ragResponse) userQuery in
  let blocks := mapi sourceBlock docs in
  prompt = PROMPT_HEAD ++ join (NL ++ NL ++ lit "---" ++ NL ++ NL) blocks ++
           NL ++ NL ++
           lit "Based on this FIFA.com content, please answer the user's question: " ++
           DQ ++ userQuery ++ DQ
  /\ prompt
     = PROMPT_HEAD ++
       concat
         (imap (fun i doc =>
                  match i with
                  | O => []
                  | S _ => NL ++ NL ++ lit "---" ++ NL ++ NL
                  end ++
                  lit "[Source " ++ numberToString (i + 1) ++ lit "] " ++ title doc ++ NL ++
                  lit "Content: " ++ content doc ++ NL ++
                  lit "URL: " ++ url doc ++ NL ++
                  lit "Last indexed: " ++ fetched_at doc)
            docs) ++
       NL ++ NL ++
       lit "Based on this FIFA.com content, please answer the user's question: " ++
       DQ ++ userQuery ++ DQ
  /\ (forall i, isNumeral (numberToString (i + 1)) (i + 1))
  /\ length blocks = length docs
  /\ (forall i doc,
        docs !! i = Some doc ->
        blocks !! i
        = Some (lit "[Source " ++ numberToString (i + 1) ++ lit "] " ++ title doc ++ NL ++
                lit "Content: " ++ content doc ++ NL ++
                lit "URL: " ++ url doc ++ NL ++
                lit "Last indexed: " ++ fetched_at doc)
        /\ includes prompt (title doc) = true
        /\ includes prompt (content doc) = true
        /\ includes prompt (url doc) = true
        /\ includes prompt (fetched_at doc) = true)
  /\ (forall before doc rest,
        docs = before ++ doc :: rest ->
        blocks = mapi sourceBlock before ++
                 sourceBlock doc (length before) ::
                 mapi_from (S (length before)) sourceBlock rest)
  /\ (forall ragResponse' userQuery',
        ragResponse' = ragResponse -> userQuery' = userQuery ->
        buildSystemPrompt (Some ragResponse') userQuery' = prompt)
  /\ (forall ragResponse',
        has_results ragResponse' = true ->
        documents ragResponse' = docs ->
        buildSystemPrompt (Some ragResponse') userQuery = prompt).
Proof.
  intros Hflag Hdocs docs prompt blocks.
  assert (Hprompt : prompt = PROMPT_HEAD ++ join SEPARATOR blocks ++
                             PROMPT_QUESTION ++ userQuery ++ DQ).
  { subst prompt blocks docs. unfold buildSystemPrompt. rewrite Hflag.
    destruct (documents ragResponse); [contradiction|]. reflexivity. }
  split; [|split; [|split; [|split; [|split; [|split; [|split]]]]]].
  - rewrite Hprompt. unfold PROMPT_QUESTION, SEPARATOR.
    rewrite <- !app_assoc. reflexivity.
  - rewrite Hprompt. subst blocks. unfold mapi. rewrite join_mapi_from.
    unfold PROMPT_QUESTION. rewrite <- !app_assoc. do 3 f_equal.
    apply imap_ext. intros i doc _. destruct i; reflexivity.
  - intros i. apply numberToString_numeral.
  - apply mapi_from_length.
  - intros i doc Hi.
    assert (Hblock : blocks !! i = Some (sourceBlock doc i))
      by (subst blocks; unfold mapi; rewrite (mapi_from_lookup _ _ 0 i doc Hi); reflexivity).
    split; [exact Hblock|].
    destruct (sourceBlock_includes doc i) as (Ht & Hc & Hu & Hf).
    rewrite Hprompt.
    repeat split; apply includes_skip, includes_app_l;
      apply (includes_join _ _ (sourceBlock doc i)); eauto using lookup_In.
  - intros before doc rest Hsplit. subst blocks. unfold mapi.
    rewrite Hsplit, mapi_from_app. reflexivity.
  - intros r' q' -> ->. reflexivity.
  - intros r' Hflag' Hdocs'. subst prompt docs. unfold buildSystemPrompt.
    rewrite Hflag, Hflag', Hdocs'. reflexivity.
Qed.

(** Two documents: the whole prompt, with both numbered blocks and the
    separator between them. *)
Lemma buildSystemPrompt_citation_witness :
  buildSystemPrompt
    (Some {| documents := [sampleDocument (lit "1"); sampleDocument (lit "2")];
             has_results := true; query_id := None |})
    (lit "When is the final?")
  = PROMPT_HEAD ++
    lit "[Source 1] Title 1" ++ NL ++
    lit "Content: Content 1" ++ NL ++
    lit "URL: https://fifa.com/en/1" ++ NL ++
    lit "Last indexed: 2025-06-01" ++ NL ++
    NL ++
    lit "---" ++ NL ++
    NL ++
    lit "[Source 2] Title 2" ++ NL ++
    lit "Content: Content 2" ++ NL ++
    lit "URL: https://fifa.com/en/2" ++ NL ++
    lit "Last indexed: 2025-06-02" ++ NL ++
    NL ++
    lit "Based on this FIFA.com content, please answer the user's question: " ++
    DQ ++ lit "When is the final?" ++ DQ
  /\ mapi sourceBlock [sampleDocument (lit "1"); sampleDocument (lit "2")] !! 1%nat
     = Some (lit "[Source 2] Title 2" ++ NL ++
             lit "Content: Content 2" ++ NL ++
             lit "URL: https://fifa.com/en/2" ++ NL ++
             lit "Last indexed: 2025-06-02")
  /\ isNumeral (lit "2") 2
  /\ includes
       (buildSystemPrompt
          (Some {| documents := [sampleDocument (lit "1"); sampleDocument (lit "2")];
                   has_results := true; query_id := None |})
          (lit "When is the final?"))
       (lit "Content 2")
     = true.
Proof.
  pose proof (buildSystemPrompt_citation
                {| documents := [sampleDocument (lit "1"); sampleDocument (lit "2")];
                   has_results := true; query_id := None |}
                (lit "When is the final?") eq_refl ltac:(discriminate)) as H.
  cbv zeta in H.
  destruct H as (_ & Hprompt & Hnum & _ & Hblocks & _).
  split; [exact Hprompt|].
  destruct (Hblocks 1%nat (sampleDocument (lit "2")) eq_refl) as (Hb & _ & Hc & _).
  split; [exact Hb|]. split; [exact (Hnum 1%nat) | exact Hc].
Defined.

(** ** The retrieval orchestrator *)

Lemma queryRAGSystem_Some (svc : Services) (embedding : list number)
    (query : jsstring) (w w' : World) (ragResponse : RAGResponse) :
  queryRAGSystem svc embedding query w = (Normal (Some ragResponse), w') ->
  exists response ragResults,
    fetch svc searchUrl (searchRequest query) = Some response
    /\ response_ok response = true
    /\ response_json response = Some ragResults
    /\ documents ragResponse
       = documentsFrom svc 0 (clock w) (default [] (results ragResults))
    /\ has_results ragResponse = (0 <? length (documents ragResponse))%nat.
Proof.
  rewrite queryRAGSystem_run. unfold retrieval.
  destruct (fetch svc searchUrl (searchRequest query)) as [response|]; [|discriminate].
  destruct (response_ok response) eqn:Hok; [|discriminate].
  destruct (response_json response) as [ragResults|] eqn:Hjson; [|discriminate].
  cbn [fst snd]. intros H. injection H as <- _.
  exists response, ragResults. repeat split; assumption.
Qed.

Lemma orElse_truthy (a b : option jsstring) (s : jsstring) :
  orElse a b = Some s -> b = Some s \/ truthy s = true.
Proof.
  unfold orElse. destruct a as [x|]; [|auto].
  destruct (truthy x) eqn:E; [|auto]. intros [= <-]. auto.
Qed.

Lemma content_choice (text meta : option jsstring) (fallback : jsstring) :
  default [] (orElse text (orElse meta (Some fallback)))
  = match text with
    | Some (c :: s) => c :: s
    | _ => match meta with
           | Some (c :: s) => c :: s
           | _ => fallback
           end
    end.
Proof. destruct text as [[|c s]|], meta as [[|c' s']|]; reflexivity. Qed.

(** C7: in every result the orchestrator constructs, [has_results] is
    true exactly when the document list is not empty, so on such a
    result the flag alone selects the template; on any argument the
    selection depends on nothing but null-ness, the flag and the
    emptiness of the list. *)
Theorem queryRAGSystem_has_results (svc : Services) (embedding : list number)
    (query : jsstring) (w w' : World) (ragResponse : RAGResponse) :
  queryRAGSystem svc embedding query w = (Normal (Some ragResponse), w') ->
  (has_results ragResponse = true <-> documents ragResponse <> [])
  /\ (forall userQuery,
        buildSystemPrompt (Some ragResponse) userQuery
        = if has_results ragResponse
          then PROMPT_HEAD ++ buildContextFromSources (documents ragResponse) ++
               PROMPT_QUESTION ++ userQuery ++ DQ
          else buildNoAnswerPrompt)
  /\ (forall (r : option RAGResponse) userQuery,
        buildSystemPrompt r userQuery
        = match r with
          | None => buildNoAnswerPrompt
          | Some x =>
              match has_results x, documents x with
              | true, _ :: _ =>
                  PROMPT_HEAD ++ buildContextFromSources (documents x) ++
                  PROMPT_QUESTION ++ userQuery ++ DQ
              | _, _ => buildNoAnswerPrompt
              end
          end).
Proof.
  intros H. apply queryRAGSystem_Some in H as (response & ragResults & _ & _ & _ & _ & Hflag).
  assert (Hiff : has_results ragResponse = true <-> documents ragResponse <> []).
  { rewrite Hflag. destruct (documents ragResponse); simpl; split; intros H;
      first [discriminate H | reflexivity | contradiction | discriminate]. }
  split; [exact Hiff|]. split.
  - intros userQuery. unfold buildSystemPrompt. rewrite Hflag.
    destruct (documents ragResponse); reflexivity.
  - intros [x|] userQuery; [|reflexivity]. unfold buildSystemPrompt.
    destruct (has_results x), (documents x); reflexivity.
Qed.

Lemma queryRAGSystem_has_results_witness :
  has_results
    {| documents := documentsFrom (servicesUp (Some [ticketResult])) 0 0 [ticketResult];
       has_results := true; query_id := None |} = true
  <-> documents
        {| documents := documentsFrom (servicesUp (Some [ticketResult])) 0 0 [ticketResult];
           has_results := true; query_id := None |} <> [].
Proof.
  refine (proj1 (queryRAGSystem_has_results (servicesUp (Some [ticketResult]))
                   [] sampleQuery initial
                   (ticked (logged initial [EvFetch searchUrl (searchRequest sampleQuery)]) 1)
                   _ _)).
  vm_compute. reflexivity.
Defined.

(** C10: the document built from the result at index [i] of the
    fetcher's list has the title [FIFA Document n] where [n] is the
    decimal numeral of [i + 1], the fetched_at read from the handler's
    clock while the list is transformed (the i-th reading after the
    call, whatever the result carries), and a non-empty content: the
    result's text, else the text of its metadata, else
    [No content available]. *)
Theorem queryRAGSystem_documents (svc : Services) (embedding : list number)
    (query : jsstring) (w w' : World) (ragResponse : RAGResponse) :
  queryRAGSystem svc embedding query w = (Normal (Some ragResponse), w') ->
  exists response ragResults,
    fetch svc searchUrl (searchRequest query) = Some response
    /\ response_json response = Some ragResults
    /\ length (documents ragResponse) = length (default [] (results ragResults))
    /\ forall i doc,
         documents ragResponse !! i = Some doc ->
         exists result,
           default [] (results ragResults) !! i = Some result
           /\ title doc = lit "FIFA Document " ++ numberToString (i + 1)
           /\ (exists digits,
                 title doc = lit "FIFA Document " ++ digits
                 /\ isNumeral digits (i + 1))
           /\ fetched_at doc = toISOString svc (clock w + i)
           /\ content doc <> []
           /\ content doc
              = match result_text result with
                | Some (c :: text) => c :: text
                | _ =>
                    match result_metadata result ≫= metadata_text with
                    | Some (c :: text) => c :: text
                    | _ => lit "No content available"
                    end
                end.
Proof.
  intros H. apply queryRAGSystem_Some in H
    as (response & ragResults & Hfetch & _ & Hjson & Hdocs & _).
  exists response, ragResults. split; [exact Hfetch|]. split; [exact Hjson|].
  rewrite Hdocs. split; [apply documentsFrom_length|].
  intros i doc Hi.
  destruct (default [] (results ragResults) !! i) as [result|] eqn:Hres.
  - rewrite (documentsFrom_lookup _ _ 0 (clock w) i result Hres) in Hi.
    injection Hi as <-. exists result. split; [reflexivity|].
    cbn [title fetched_at content documentAt].
    pose proof (content_choice (result_text result)
                  (result_metadata result ≫= metadata_text)
                  (lit "No content available")) as Hcontent.
    split; [reflexivity|].
    split; [eexists; split; [reflexivity | apply numberToString_numeral]|].
    repeat split; [|exact Hcontent].
    rewrite Hcontent.
    destruct (result_text result) as [[|c text]|]; try discriminate;
      destruct (result_metadata result ≫= metadata_text) as [[|c' text']|];
      cbn; discriminate.
  - apply lookup_ge_None in Hres. apply lookup_lt_Some in Hi.
    rewrite documentsFrom_length in Hi. lia.
Qed.

(** Two results, the second without text: the titles, contents and
    fetched_at values of the documents returned, spelled out. *)
Lemma queryRAGSystem_documents_witness :
  queryRAGSystem (servicesUp (Some [ticketResult; bareResult])) [] sampleQuery initial
  = (Normal
       (Some {| documents :=
                  [ {| url := lit "https://fifa.com/en/tournaments/mens/worldcup/canadamexicousa2026/tickets";
                       title := lit "FIFA Document 1";
                       content := lit "Ticket prices start at 60 USD";
                       fetched_at := lit "2025-06-01T12:00:00.000Z";
                       score := Some 0.5%float |};
                    {| url := lit "https://fifa.com/en/tournaments/mens/worldcup/canadamexicousa2026";
                       title := lit "FIFA Document 2";
                       content := lit "No content available";
                       fetched_at := lit "2025-06-01T12:00:01.000Z";
                       score := None |} ];
                has_results := true; query_id := None |}),
     {| trace := [EvFetch (lit "http://localhost:8000/search")
                    {| rag_query := sampleQuery; limit := 5;
                       score_threshold := 0.3%float |}];
        clock := 2 |})
  /\ exists response ragResults,
       fetch (servicesUp (Some [ticketResult; bareResult])) searchUrl
         (searchRequest sampleQuery) = Some response
       /\ response_json response = Some ragResults
       /\ length (documentsFrom (servicesUp (Some [ticketResult; bareResult])) 0 0
                    [ticketResult; bareResult])
          = length (default [] (results ragResults))
       /\ forall i doc,
            documentsFrom (servicesUp (Some [ticketResult; bareResult])) 0 0
              [ticketResult; bareResult] !! i = Some doc ->
            exists result,
              default [] (results ragResults) !! i = Some result
              /\ title doc = lit "FIFA Document " ++ numberToString (i + 1)
              /\ (exists digits,
                    title doc = lit "FIFA Document " ++ digits
                    /\ isNumeral digits (i + 1))
              /\ fetched_at doc = sampleClock (0 + i)
              /\ content doc <> []
              /\ content doc
                 = match result_text result with
                   | Some (c :: text) => c :: text
                   | _ =>
                       match result_metadata result ≫= metadata_text with
                       | Some (c :: text) => c :: text
                       | _ => lit "No content available"
                       end
                   end.
Proof.
  assert (Hrun :
    queryRAGSystem (servicesUp (Some [ticketResult; bareResult])) [] sampleQuery initial
    = (Normal
         (Some {| documents := documentsFrom (servicesUp (Some [ticketResult; bareResult]))
                                 0 0 [ticketResult; bareResult];
                  has_results := true; query_id := None |}),
       ticked (logged initial [EvFetch searchUrl (searchRequest sampleQuery)]) 2))
    by (vm_compute; reflexivity).
  split; [vm_compute; reflexivity|].
  exact (queryRAGSystem_documents (servicesUp (Some [ticketResult; bareResult]))
           [] sampleQuery initial
           (ticked (logged initial [EvFetch searchUrl (searchRequest sampleQuery)]) 2)
           {| documents := documentsFrom (servicesUp (Some [ticketResult; bareResult]))
                             0 0 [ticketResult; bareResult];
              has_results := true; query_id := None |}
           Hrun).
Defined.

(** C9: the classifier is a total function whose result is always one
    of nine URLs, each of which starts with the address of the
    tournament section; hence the URL of every document the orchestrator
    builds starts with that address. *)
Theorem convertToRealFIFAUrl_range :
  (forall (lower : jsstring -> jsstring) (docId content : jsstring),
      In (convertToRealFIFAUrl lower docId content) classifierUrls)
  /\ length classifierUrls = 9%nat
  /\ (forall u, In u classifierUrls ->
        startsWith u
          (lit "https://fifa.com/en/tournaments/mens/worldcup/canadamexicousa2026")
        = true)
  /\ (forall svc embedding query w w' ragResponse doc,
        queryRAGSystem svc embedding query w = (Normal (Some ragResponse), w') ->
        In doc (documents ragResponse) ->
        startsWith (url doc)
          (lit "https://fifa.com/en/tournaments/mens/worldcup/canadamexicousa2026")
        = true).
Proof.
  assert (Hprefix : forall u, In u classifierUrls -> startsWith u TOURNAMENT = true).
  { intros u. apply (proj1 (List.Forall_forall _ _) classifierUrls_prefix). }
  split; [exact convertToRealFIFAUrl_in_range|].
  split; [reflexivity|]. split; [exact Hprefix|].
  intros svc embedding query w w' ragResponse doc H Hin.
  apply queryRAGSystem_Some in H as (response & ragResults & _ & _ & _ & Hdocs & _).
  rewrite Hdocs in Hin.
  apply documentsFrom_In in Hin as (i & result & _ & ->).
  apply Hprefix. cbn [url documentAt]. apply convertToRealFIFAUrl_in_range.
Qed.

Lemma convertToRealFIFAUrl_range_witness :
  startsWith (url (documentAt (servicesUp (Some [ticketResult])) ticketResult 0 0))
    (lit "https://fifa.com/en/tournaments/mens/worldcup/canadamexicousa2026")
  = true.
Proof.
  refine (proj2 (proj2 (proj2 convertToRealFIFAUrl_range))
            (servicesUp (Some [ticketResult])) [] sampleQuery initial
            (ticked (logged initial [EvFetch searchUrl (searchRequest sampleQuery)]) 1)
            {| documents := documentsFrom (servicesUp (Some [ticketResult])) 0 0 [ticketResult];
               has_results := true; query_id := None |}
            _ _ _).
  - vm_compute. reflexivity.
  - left. reflexivity.
Defined.

(** ** The chat endpoint *)

Lemma filter_text_none (ps : list Part) :
  Forall (fun p => part_type p <> lit "text") ps ->
  filter (fun part => part_type part = lit "text") ps = [].
Proof.
  induction 1 as [|p ps Hp _ IH]; [reflexivity|].
  rewrite filter_cons_False by exact Hp. exact IH.
Qed.

Lemma extractQuery_no_text (ms : list UIMessage) :
  (forall m ps, last ms = Some m -> parts m = Some ps ->
     Forall (fun p => part_type p <> lit "text") ps) ->
  extractQuery ms = [].
Proof.
  intros H. unfold extractQuery.
  destruct (last ms) as [m|]; [|reflexivity]. cbn [mbind option_bind].
  destruct (parts m) as [ps|] eqn:Hps; [|reflexivity].
  rewrite (filter_text_none ps (H m ps eq_refl Hps)). reflexivity.
Qed.

Lemma trim_nil : trim [] = [].
Proof. reflexivity. Qed.

(** C8: when the body does not parse or carries no [messages], the
    handler answers with status 500 and the plain text
    [Internal Server Error]; the only thing it did is the error log of
    its catch block, so neither the embedding service, nor the RAG API,
    nor the completion service was called. *)
Theorem POST_malformed_request (svc : Services) (req : Request) (w : World) :
  req_json req = None
  \/ (exists body, req_json req = Some body /\ messages body = None) ->
  POST svc req w
  = (Normal (PlainResponse (lit "Internal Server Error") 500),
     {| trace := trace w ++ [EvConsoleError ChatCatch]; clock := clock w |})
  /\ response_status (PlainResponse (lit "Internal Server Error") 500) = 500
  /\ (forall e, In e (trace (POST svc req w).2) ->
        In e (trace w) \/ e = EvConsoleError ChatCatch).
Proof.
  intros H.
  assert (Hrun : POST svc req w
                 = (Normal internalServerError, logged w [EvConsoleError ChatCatch])).
  { apply POST_malformed. destruct H as [-> | (body & -> & Hm)]; [reflexivity | exact Hm]. }
  split; [exact Hrun|]. split; [reflexivity|].
  intros e. rewrite Hrun. unfold logged. cbn [snd trace].
  rewrite in_app_iff. intros [Hin|[<-|[]]]; auto.
Qed.

Lemma POST_malformed_request_witness :
  POST servicesFetchDown {| req_json := Some {| messages := None |} |} initial
  = (Normal (PlainResponse (lit "Internal Server Error") 500),
     {| trace := trace initial ++ [EvConsoleError ChatCatch]; clock := clock initial |}).
Proof.
  refine (proj1 (POST_malformed_request servicesFetchDown
                   {| req_json := Some {| messages := None |} |} initial _)).
  right. exists {| messages := None |}. split; reflexivity.
Defined.

(** C6: when the text extracted from the last message is empty or only
    white space, as it is when that message has no text part, the
    handler makes one call, the completion call without a system
    prompt, and answers with its stream (with the internal-error
    response if that call throws); the embedding service and the RAG
    API are not called. *)
Theorem POST_empty_query (svc : Services) (req : Request)
    (ms : list UIMessage) (w : World) :
  (req_json req ≫= messages) = Some ms ->
  trim (extractQuery ms) = [] ->
  let args := {| model := lit "gpt-5"; system := None; model_messages := ms |} in
  POST svc req w
  = (if streamText svc args
     then (Normal (UIMessageStreamResponse args),
           {| trace := trace w ++ [EvStreamText args]; clock := clock w |})
     else (Normal (PlainResponse (lit "Internal Server Error") 500),
           {| trace := trace w ++ [EvStreamText args; EvConsoleError ChatCatch];
              clock := clock w |}))
  /\ (forall e, In e (trace (POST svc req w).2) ->
        In e (trace w) \/ e = EvStreamText args \/ e = EvConsoleError ChatCatch)
  /\ (forall ms',
        (forall m ps, last ms' = Some m -> parts m = Some ps ->
           Forall (fun p => part_type p <> lit "text") ps) ->
        trim (extractQuery ms') = []).
Proof.
  intros Hreq Hq args.
  assert (Hrun : POST svc req w = fallbackOutcome svc ms w).
  { rewrite (POST_run svc req ms w Hreq). unfold handled. rewrite Hq. reflexivity. }
  split; [exact Hrun|]. split.
  - intros e. rewrite Hrun. unfold fallbackOutcome.
    change (fallbackArgs ms) with args.
    destruct (streamText svc args); unfold logged; cbn [snd trace];
      rewrite in_app_iff; cbn [In]; intuition auto.
  - intros ms' H. rewrite (extractQuery_no_text ms' H). reflexivity.
Qed.

Lemma POST_empty_query_witness :
  POST servicesFetchDown
    (chatRequest [userMessage [textPart (lit "  "); textPart [9; 160]]]) initial
  = (Normal (UIMessageStreamResponse
               {| model := lit "gpt-5"; system := None;
                  model_messages := [userMessage [textPart (lit "  "); textPart [9; 160]]] |}),
     {| trace := [EvStreamText
                    {| model := lit "gpt-5"; system := None;
                       model_messages :=
                         [userMessage [textPart (lit "  "); textPart [9; 160]]] |}];
        clock := 0 |}).
Proof.
  exact (proj1 (POST_empty_query servicesFetchDown
                  (chatRequest [userMessage [textPart (lit "  "); textPart [9; 160]]])
                  [userMessage [textPart (lit "  "); textPart [9; 160]]]
                  initial eq_refl eq_refl)).
Defined.

(** *** Retrieval failures *)

Lemma retrieval_failed (svc : Services) (query : jsstring) (w : World) :
  fetchFailed svc query ->
  retrieval svc query w
  = (None, logged w [EvFetch searchUrl (searchRequest query); EvConsoleError RagCatch]).
Proof.
  unfold fetchFailed, retrieval.
  destruct (fetch svc searchUrl (searchRequest query)) as [response|]; [|reflexivity].
  intros ->. reflexivity.
Qed.

Lemma retrieval_empty (svc : Services) (query : jsstring) (w : World)
    (response : FetchResponse) (ragResults : RagResults) :
  fetch svc searchUrl (searchRequest query) = Some response ->
  response_ok response = true ->
  response_json response = Some ragResults ->
  default [] (results ragResults) = [] ->
  retrieval svc query w
  = (Some {| documents := []; has_results := false; query_id := None |},
     ticked (logged w [EvFetch searchUrl (searchRequest query)]) 0).
Proof.
  intros Hfetch Hok Hjson Hrs. unfold retrieval.
  rewrite Hfetch, Hok, Hjson, Hrs. reflexivity.
Qed.

Lemma promptedOutcome_ok (svc : Services) (systemPrompt : jsstring)
    (ms : list UIMessage) (w : World) :
  streamText svc (ragArgs systemPrompt ms) = true ->
  promptedOutcome svc systemPrompt ms w
  = (Normal (UIMessageStreamResponse (ragArgs systemPrompt ms)),
     logged w [EvStreamText (ragArgs systemPrompt ms)]).
Proof. unfold promptedOutcome. intros ->. reflexivity. Qed.

Lemma fallbackOutcome_ok (svc : Services) (ms : list UIMessage) (w : World) :
  streamText svc (fallbackArgs ms) = true ->
  fallbackOutcome svc ms w
  = (Normal (UIMessageStreamResponse (fallbackArgs ms)),
     logged w [EvStreamText (fallbackArgs ms)]).
Proof. unfold fallbackOutcome. intros ->. reflexivity. Qed.

Lemma POST_run_fetch_failed (svc : Services) (req : Request) (ms : list UIMessage)
    (w : World) (e : list number) :
  (req_json req ≫= messages) = Some ms ->
  truthy (trim (extractQuery ms)) = true ->
  embed svc EMBEDDING_MODEL (extractQuery ms) = Some e ->
  fetchFailed svc (extractQuery ms) ->
  POST svc req w
  = promptedOutcome svc buildNoAnswerPrompt ms
      (logged w [EvEmbed EMBEDDING_MODEL (extractQuery ms);
                 EvFetch searchUrl (searchRequest (extractQuery ms));
                 EvConsoleError RagCatch]).
Proof.
  intros Hreq Hq He Hfail. rewrite (POST_run svc req ms w Hreq).
  unfold handled. rewrite Hq, He. cbv zeta.
  rewrite (retrieval_failed _ _ _ Hfail). cbn [fst snd].
  rewrite logged_logged. reflexivity.
Qed.

Lemma POST_run_embed_failed (svc : Services) (req : Request) (ms : list UIMessage)
    (w : World) :
  (req_json req ≫= messages) = Some ms ->
  truthy (trim (extractQuery ms)) = true ->
  embed svc EMBEDDING_MODEL (extractQuery ms) = None ->
  POST svc req w
  = fallbackOutcome svc ms
      (logged w [EvEmbed EMBEDDING_MODEL (extractQuery ms);
                 EvConsoleError EmbeddingCatch]).
Proof.
  intros Hreq Hq He. rewrite (POST_run svc req ms w Hreq).
  unfold handled. rewrite Hq, He. reflexivity.
Qed.

(** C2, as the claim states it, fails when the RAG API is unreachable:
    the query is not empty, the fetch call fails, and the handler
    answers with the stream of a completion call that does carry a
    system prompt, the no-answer prompt; no completion call without a
    system prompt is made. *)
Lemma fetch_failure_keeps_system_prompt :
  truthy (trim (extractQuery sampleMessages)) = true
  /\ fetch servicesFetchDown searchUrl (searchRequest (extractQuery sampleMessages)) = None
  /\ POST servicesFetchDown (chatRequest sampleMessages) initial
     = (Normal (UIMessageStreamResponse
                  {| model := lit "openai/gpt-4o-mini";
                     system := Some buildNoAnswerPrompt;
                     model_messages := sampleMessages |}),
        {| trace := [EvEmbed EMBEDDING_MODEL sampleQuery;
                     EvFetch searchUrl (searchRequest sampleQuery);
                     EvConsoleError RagCatch;
                     EvStreamText
                       {| model := lit "openai/gpt-4o-mini";
                          system := Some buildNoAnswerPrompt;
                          model_messages := sampleMessages |}];
           clock := 0 |})
  /\ Some buildNoAnswerPrompt <> (None : option jsstring)
  /\ ~ In (EvStreamText
             {| model := lit "gpt-5"; system := None; model_messages := sampleMessages |})
          (trace (POST servicesFetchDown (chatRequest sampleMessages) initial).2).
Proof.
  split; [reflexivity|]. split; [reflexivity|].
  assert (Hrun : POST servicesFetchDown (chatRequest sampleMessages) initial
     = (Normal (UIMessageStreamResponse (ragArgs buildNoAnswerPrompt sampleMessages)),
        logged initial [EvEmbed EMBEDDING_MODEL sampleQuery;
                        EvFetch searchUrl (searchRequest sampleQuery);
                        EvConsoleError RagCatch;
                        EvStreamText (ragArgs buildNoAnswerPrompt sampleMessages)])).
  { rewrite (POST_run_fetch_failed servicesFetchDown (chatRequest sampleMessages)
               sampleMessages initial [0.25%float; 0.5%float]
               eq_refl eq_refl eq_refl I).
    rewrite promptedOutcome_ok by reflexivity.
    rewrite logged_logged. reflexivity. }
  split; [exact Hrun|]. split; [discriminate|].
  rewrite Hrun. unfold logged. cbn [snd trace initial app In].
  intros [H|[H|[H|[H|[]]]]]; discriminate H.
Qed.

(** C2, amended: for a request with a non-empty trimmed query, a
    failure of the embedding call is caught by the handler, which makes
    no fetch call and falls back to the completion call without a system
    prompt; a failure of the fetch call is caught inside the orchestrator
    and turned into a null result, after which the handler makes the
    completion call with the no-answer system prompt.  Neither failure
    aborts the request: when the completion service answers the fallback
    call, the response is a stream. *)
Theorem POST_retrieval_failure (svc : Services) (req : Request)
    (ms : list UIMessage) (w : World) :
  (req_json req ≫= messages) = Some ms ->
  truthy (trim (extractQuery ms)) = true ->
  let query := extractQuery ms in
  let embedCall := EvEmbed (lit "openai/text-embedding-3-small") query in
  let fetchCall := EvFetch searchUrl (searchRequest query) in
  let unprompted := {| model := lit "gpt-5"; system := None; model_messages := ms |} in
  let prompted := {| model := lit "openai/gpt-4o-mini";
                     system := Some buildNoAnswerPrompt;
                     model_messages := ms |} in
  (embed svc (lit "openai/text-embedding-3-small") query = None ->
     POST svc req w
     = (if streamText svc unprompted
        then (Normal (UIMessageStreamResponse unprompted),
              logged w [embedCall; EvConsoleError EmbeddingCatch;
                        EvStreamText unprompted])
        else (Normal internalServerError,
              logged w [embedCall; EvConsoleError EmbeddingCatch;
                        EvStreamText unprompted; EvConsoleError ChatCatch])))
  /\ (forall e,
        embed svc (lit "openai/text-embedding-3-small") query = Some e ->
        fetchFailed svc query ->
        queryRAGSystem svc e query (logged w [embedCall])
        = (Normal None, logged w [embedCall; fetchCall; EvConsoleError RagCatch])
        /\ POST svc req w
           = promptedOutcome svc buildNoAnswerPrompt ms
               (logged w [embedCall; fetchCall; EvConsoleError RagCatch])
        /\ (streamText svc prompted = true ->
            POST svc req w
            = (Normal (UIMessageStreamResponse prompted),
               logged w [embedCall; fetchCall; EvConsoleError RagCatch;
                         EvStreamText prompted])))
  /\ (embed svc (lit "openai/text-embedding-3-small") query = None
      \/ fetchFailed svc query ->
      streamText svc unprompted = true ->
      exists args, (POST svc req w).1 = Normal (UIMessageStreamResponse args)).
Proof.
  intros Hreq Hq query embedCall fetchCall unprompted prompted.
  change (lit "openai/text-embedding-3-small") with EMBEDDING_MODEL in *.
  assert (Hembed : embed svc EMBEDDING_MODEL query = None ->
            POST svc req w
            = fallbackOutcome svc ms (logged w [embedCall; EvConsoleError EmbeddingCatch]))
    by (apply POST_run_embed_failed; assumption).
  assert (Hfetch : forall e, embed svc EMBEDDING_MODEL query = Some e ->
            fetchFailed svc query ->
            POST svc req w
            = promptedOutcome svc buildNoAnswerPrompt ms
                (logged w [embedCall; fetchCall; EvConsoleError RagCatch]))
    by (intros e; apply POST_run_fetch_failed; assumption).
  split; [|split].
  - intros He. rewrite (Hembed He). unfold fallbackOutcome.
    change (fallbackArgs ms) with unprompted.
    destruct (streamText svc unprompted); rewrite logged_logged; reflexivity.
  - intros e He Hfail. split; [|split].
    + rewrite queryRAGSystem_run, (retrieval_failed _ _ _ Hfail).
      cbn [fst snd]. rewrite logged_logged. reflexivity.
    + exact (Hfetch e He Hfail).
    + intros Hok. rewrite (Hfetch e He Hfail).
      rewrite promptedOutcome_ok by exact Hok. rewrite logged_logged. reflexivity.
  - intros Hfail Hok.
    destruct (embed svc EMBEDDING_MODEL query) as [e|] eqn:He.
    + destruct Hfail as [Hfail|Hfail]; [discriminate Hfail|].
      rewrite (Hfetch e eq_refl Hfail). unfold promptedOutcome.
      destruct (streamText svc (ragArgs buildNoAnswerPrompt ms)).
      * eexists. reflexivity.
      * rewrite fallbackOutcome_ok by exact Hok. eexists. reflexivity.
    + rewrite (Hembed eq_refl), fallbackOutcome_ok by exact Hok.
      eexists. reflexivity.
Qed.

Lemma POST_retrieval_failure_witness :
  POST servicesEmbedDown (chatRequest sampleMessages) initial
  = (Normal (UIMessageStreamResponse
               {| model := lit "gpt-5"; system := None; model_messages := sampleMessages |}),
     logged initial
       [EvEmbed (lit "openai/text-embedding-3-small") (extractQuery sampleMessages);
        EvConsoleError EmbeddingCatch;
        EvStreamText
          {| model := lit "gpt-5"; system := None; model_messages := sampleMessages |}]).
Proof.
  exact (proj1 (POST_retrieval_failure servicesEmbedDown (chatRequest sampleMessages)
                  sampleMessages initial eq_refl eq_refl) eq_refl).
Defined.

(** C3: for a request with a non-empty trimmed query whose fetch call
    fails, by a network error or a status outside 200-299, the
    orchestrator returns null, the prompt built from it is the no-answer
    prompt, and the handler answers with the stream of the completion
    call carrying that prompt, status 200, provided the completion
    service answers that call.  The response is the one given when the
    RAG API answers with an empty result list. *)
Theorem POST_fetch_failure (svc : Services) (req : Request)
    (ms : list UIMessage) (w : World) (e : list number) :
  (req_json req ≫= messages) = Some ms ->
  truthy (trim (extractQuery ms)) = true ->
  embed svc (lit "openai/text-embedding-3-small") (extractQuery ms) = Some e ->
  match fetch svc (lit "http://localhost:8000/search")
          {| rag_query := extractQuery ms; limit := 5; score_threshold := 0.3%float |}
  with
  | None => True
  | Some response => (200 <=? status response) && (status response <=? 299) = false
  end ->
  let query := extractQuery ms in
  let embedCall := EvEmbed (lit "openai/text-embedding-3-small") query in
  let fetchCall := EvFetch searchUrl (searchRequest query) in
  let prompted := {| model := lit "openai/gpt-4o-mini";
                     system := Some buildNoAnswerPrompt;
                     model_messages := ms |} in
  streamText svc prompted = true ->
  queryRAGSystem svc e query (logged w [embedCall])
  = (Normal None, logged w [embedCall; fetchCall; EvConsoleError RagCatch])
  /\ buildSystemPrompt None query = buildNoAnswerPrompt
  /\ POST svc req w
     = (Normal (UIMessageStreamResponse prompted),
        logged w [embedCall; fetchCall; EvConsoleError RagCatch; EvStreamText prompted])
  /\ response_status (UIMessageStreamResponse prompted) = 200
  /\ (forall svc' e' response ragResults,
        embed svc' (lit "openai/text-embedding-3-small") query = Some e' ->
        fetch svc' searchUrl (searchRequest query) = Some response ->
        response_ok response = true ->
        response_json response = Some ragResults ->
        default [] (results ragResults) = [] ->
        streamText svc' prompted = true ->
        (POST svc' req w).1 = (POST svc req w).1).
Proof.
  intros Hreq Hq He Hfail query embedCall fetchCall prompted Hok.
  change (lit "openai/text-embedding-3-small") with EMBEDDING_MODEL in *.
  assert (Hfailed : fetchFailed svc query) by exact Hfail.
  assert (Hrun : POST svc req w
     = (Normal (UIMessageStreamResponse prompted),
        logged w [embedCall; fetchCall; EvConsoleError RagCatch; EvStreamText prompted])).
  { rewrite (POST_run_fetch_failed svc req ms w e Hreq Hq He Hfailed).
    rewrite promptedOutcome_ok by exact Hok. rewrite logged_logged. reflexivity. }
  split; [|split; [reflexivity | split; [exact Hrun | split; [reflexivity|]]]].
  - rewrite queryRAGSystem_run, (retrieval_failed _ _ _ Hfailed).
    cbn [fst snd]. rewrite logged_logged. reflexivity.
  - intros svc' e' response ragResults He' Hfetch' Hok' Hjson' Hempty Hstream'.
    rewrite Hrun, (POST_run svc' req ms w Hreq). unfold handled.
    rewrite Hq. fold query. rewrite He'. cbv zeta.
    rewrite (retrieval_empty svc' query _ response ragResults Hfetch' Hok' Hjson' Hempty).
    cbn [fst snd].
    change (buildSystemPrompt _ query) with buildNoAnswerPrompt.
    rewrite promptedOutcome_ok by exact Hstream'. reflexivity.
Qed.

Lemma POST_fetch_failure_witness :
  queryRAGSystem servicesFetchDown [0.25%float; 0.5%float] (extractQuery sampleMessages)
    (logged initial [EvEmbed (lit "openai/text-embedding-3-small")
                       (extractQuery sampleMessages)])
  = (Normal None,
     logged initial
       [EvEmbed (lit "openai/text-embedding-3-small") (extractQuery sampleMessages);
        EvFetch searchUrl (searchRequest (extractQuery sampleMessages));
        EvConsoleError RagCatch])
  /\ (POST (servicesUp (Some [])) (chatRequest sampleMessages) initial).1
     = (POST servicesFetchDown (chatRequest sampleMessages) initial).1.
Proof.
  pose proof (POST_fetch_failure servicesFetchDown (chatRequest sampleMessages)
                sampleMessages initial [0.25%float; 0.5%float]
                eq_refl eq_refl eq_refl I eq_refl) as H.
  split; [exact (proj1 H)|].
  exact (proj2 (proj2 (proj2 (proj2 H)))
           (servicesUp (Some [])) [0.25%float; 0.5%float]
           {| status := 200; statusText := lit "OK";
              response_json := Some {| total_found := None; results := Some [] |} |}
           {| total_found := None; results := Some [] |}
           eq_refl eq_refl eq_refl eq_refl eq_refl eq_refl).
Defined.

(** A status outside 200-299 is a failure of the fetch call as well. *)
Example queryRAGSystem_status_503 :
  queryRAGSystem
    {| toLowerCase := asciiToLowerCase;
       embed := fun _ _ => Some [];
       fetch := fun _ _ =>
         Some {| status := 503; statusText := lit "Service Unavailable";
                 response_json := None |};
       streamText := fun _ => true;
       toISOString := sampleClock |}
    [] sampleQuery initial
  = (Normal None,
     logged initial [EvFetch searchUrl (searchRequest sampleQuery); EvConsoleError RagCatch]).
Proof. vm_compute. reflexivity. Qed.

(** The documents built from two results: the second has neither text
    nor metadata text. *)
Example queryRAGSystem_two_results :
  map (fun d => (title d, content d, fetched_at d))
    (documentsFrom (servicesUp None) 0 0 [ticketResult; bareResult])
  = [ (lit "FIFA Document 1", lit "Ticket prices start at 60 USD",
       lit "2025-06-01T12:00:00.000Z");
      (lit "FIFA Document 2", lit "No content available",
       lit "2025-06-01T12:00:01.000Z") ].
Proof. vm_compute. reflexivity. Qed.

(** * Further properties *)

(** ** Keywords and the classifier *)

Lemma includes_occursIn (s k : jsstring) : includes s k = true <-> occursIn k s.
Proof.
  split.
  - induction s as [|c s IH]; simpl; intros H.
    + rewrite orb_false_r in H. apply startsWith_prefix in H as [rest ->].
      exists [], rest. reflexivity.
    + apply orb_true_iff in H as [H|H].
      * apply startsWith_prefix in H as [rest ->]. exists [], rest. reflexivity.
      * destruct (IH H) as (pre & post & ->). exists (c :: pre), post. reflexivity.
  - intros (pre & post & ->). apply includes_infix.
Qed.

Lemma ruleMatches_occursIn (c : jsstring) (r : Rule) :
  ruleMatches c r = true <-> exists k, In k (keywords r) /\ occursIn k c.
Proof.
  unfold ruleMatches. rewrite existsb_exists.
  split; intros (k & Hin & Hk); exists k; (split; [exact Hin|]);
    apply includes_occursIn; exact Hk.
Qed.

Lemma rules_match_occursIn (c : jsstring) (rules : list Rule) :
  existsb (ruleMatches c) rules = true
  <-> exists k, In k (keywordsOf rules) /\ occursIn k c.
Proof.
  unfold keywordsOf. rewrite existsb_exists. split.
  - intros (r & Hr & Hm). apply ruleMatches_occursIn in Hm as (k & Hk & Hocc).
    exists k. split; [|exact Hocc]. apply in_concat. exists (keywords r).
    split; [apply in_map; exact Hr | exact Hk].
  - intros (k & Hk & Hocc). apply in_concat in Hk as (ks & Hks & Hk).
    apply in_map_iff in Hks as (r & <- & Hr). exists r. split; [exact Hr|].
    apply ruleMatches_occursIn. exists k. split; assumption.
Qed.

Lemma rules_miss_occursIn (c : jsstring) (rules : list Rule) :
  existsb (ruleMatches c) rules = false
  <-> forall k, In k (keywordsOf rules) -> ~ occursIn k c.
Proof.
  split.
  - intros H k Hk Hocc.
    assert (existsb (ruleMatches c) rules = true)
      by (apply rules_match_occursIn; exists k; split; assumption).
    congruence.
  - intros H. destruct (existsb (ruleMatches c) rules) eqn:E; [|reflexivity].
    apply rules_match_occursIn in E as (k & Hk & Hocc). destruct (H k Hk Hocc).
Qed.

Lemma firstMatch_skip (default c : jsstring) (rs1 rs2 : list Rule) :
  existsb (ruleMatches c) rs1 = false ->
  firstMatch (rs1 ++ rs2) default c = firstMatch rs2 default c.
Proof.
  induction rs1 as [|r rs1 IH]; simpl; [reflexivity|].
  destruct (ruleMatches c r); simpl; [discriminate | exact IH].
Qed.

Lemma firstMatch_none (default c : jsstring) (rs : list Rule) :
  existsb (ruleMatches c) rs = false -> firstMatch rs default c = default.
Proof.
  induction rs as [|r rs IH]; simpl; [reflexivity|].
  destruct (ruleMatches c r); simpl; [discriminate | exact IH].
Qed.

Lemma existsb_rules_app (c : jsstring) (rs1 rs2 : list Rule) :
  existsb (ruleMatches c) (rs1 ++ rs2)
  = existsb (ruleMatches c) rs1 || existsb (ruleMatches c) rs2.
Proof. apply existsb_app. Qed.

Ltac distinct_urls H :=
  vm_compute in H;
  repeat (destruct H as [H|H]; [discriminate H|]);
  first [discriminate H | destruct H].

(** X1: the classifier answers with the tournament page exactly when
    no keyword of any rule occurs in the lower-cased content. *)
Theorem convertToRealFIFAUrl_default_iff
    (lower : jsstring -> jsstring) (docId content : jsstring) :
  convertToRealFIFAUrl lower docId content
  = lit "https://fifa.com/en/tournaments/mens/worldcup/canadamexicousa2026"
  <-> forall k,
        In k (keywordsOf (venueRules ++ groupRules ++ ticketRules ++ stadiumRules)) ->
        ~ occursIn k (lower content).
Proof.
  rewrite convertToRealFIFAUrl_table. fold TOURNAMENT. fold priorityRules.
  rewrite <- rules_miss_occursIn. split.
  - intros H. destruct (existsb (ruleMatches (lower content)) priorityRules) eqn:E;
      [|reflexivity].
    pose proof (firstMatch_target TOURNAMENT _ _ E) as Hin. rewrite H in Hin.
    distinct_urls Hin.
  - apply firstMatch_none.
Qed.

(** X2: the classifier answers with one of the five venue pages exactly
    when a venue keyword occurs in the lower-cased content. *)
Theorem convertToRealFIFAUrl_venue_iff
    (lower : jsstring -> jsstring) (docId content : jsstring) :
  In (convertToRealFIFAUrl lower docId content) venueUrls
  <-> exists k, In k (keywordsOf venueRules) /\ occursIn k (lower content).
Proof.
  rewrite convertToRealFIFAUrl_table, <- rules_match_occursIn. unfold priorityRules.
  split.
  - intros Hin.
    destruct (existsb (ruleMatches (lower content)) venueRules) eqn:E; [reflexivity|].
    rewrite (firstMatch_skip _ _ _ _ E) in Hin.
    pose proof (firstMatch_range TOURNAMENT (lower content)
                  (groupRules ++ ticketRules ++ stadiumRules)) as Hrange.
    revert Hin Hrange.
    generalize (firstMatch (groupRules ++ ticketRules ++ stadiumRules) TOURNAMENT
                  (lower content)) as u.
    intros u Hin Hrange. exfalso. vm_compute in Hin, Hrange.
    repeat (destruct Hrange as [Hrange|Hrange];
            [subst u; repeat (destruct Hin as [Hin|Hin]; [discriminate Hin|]);
             destruct Hin|]).
    destruct Hrange.
  - intros E.
    rewrite (firstMatch_prefix TOURNAMENT _ venueRules _ TOURNAMENT E).
    exact (firstMatch_target TOURNAMENT _ venueRules E).
Qed.

(** X3: the classifier answers with the tickets page exactly when a
    ticket keyword occurs in the lower-cased content and no venue or
    group keyword does; a generic stadium keyword beside it does not
    matter. *)
Theorem convertToRealFIFAUrl_tickets_iff
    (lower : jsstring -> jsstring) (docId content : jsstring) :
  convertToRealFIFAUrl lower docId content
  = lit "https://fifa.com/en/tournaments/mens/worldcup/canadamexicousa2026/tickets"
  <-> (exists k, In k [lit "ticket"; lit "precio"; lit "price"; lit "usd"]
                 /\ occursIn k (lower content))
      /\ (forall k, In k (keywordsOf (venueRules ++ groupRules)) ->
            ~ occursIn k (lower content)).
Proof.
  rewrite convertToRealFIFAUrl_table, <- rules_miss_occursIn.
  change [lit "ticket"; lit "precio"; lit "price"; lit "usd"]
    with (keywordsOf ticketRules).
  rewrite <- rules_match_occursIn.
  change (lit "https://fifa.com/en/tournaments/mens/worldcup/canadamexicousa2026/tickets")
    with TICKETS.
  unfold priorityRules. rewrite (app_assoc venueRules).
  split.
  - intros H.
    destruct (existsb (ruleMatches (lower content)) (venueRules ++ groupRules)) eqn:E.
    + exfalso.
      rewrite (firstMatch_prefix TOURNAMENT _ _ _ TOURNAMENT E) in H.
      pose proof (firstMatch_target TOURNAMENT _ _ E) as Hin. rewrite H in Hin.
      distinct_urls Hin.
    + split; [|reflexivity]. rewrite (firstMatch_skip _ _ _ _ E) in H.
      destruct (existsb (ruleMatches (lower content)) ticketRules) eqn:Et; [reflexivity|].
      exfalso. rewrite (firstMatch_skip _ _ _ _ Et) in H.
      pose proof (firstMatch_range TOURNAMENT (lower content) stadiumRules) as Hin.
      rewrite H in Hin. distinct_urls Hin.
  - intros [Et E]. rewrite (firstMatch_skip _ _ _ _ E).
    rewrite (firstMatch_prefix TOURNAMENT _ ticketRules _ TOURNAMENT Et).
    cbn [ticketRules firstMatch]. cbn [existsb ticketRules] in Et.
    rewrite orb_false_r in Et. rewrite Et. reflexivity.
Qed.

(** ** The orchestrator, further *)

Lemma toDocument_run (svc : Services) (result : RawResult) (index : nat) (w : World) :
  toDocument svc result index w
  = (Normal (documentAt svc result index (clock w)),
     {| trace := trace w; clock := S (clock w) |}).
Proof. reflexivity. Qed.

Lemma classify_empty (lower : jsstring -> jsstring) (docId : jsstring) :
  lower [] = [] -> convertToRealFIFAUrl lower docId [] = TOURNAMENT.
Proof.
  intros H. rewrite convertToRealFIFAUrl_table, H. vm_compute. reflexivity.
Qed.

(** X4: the URL of a document is classified from the result's own text
    only.  When the text is missing or empty the URL is the tournament
    page, whatever the metadata holds, although the content falls back
    to the metadata text. *)
Theorem toDocument_url_from_text (svc : Services) (result : RawResult)
    (index : nat) (w : World) :
  toLowerCase svc [] = [] ->
  result_text result = None \/ result_text result = Some [] ->
  exists doc,
    toDocument svc result index w
    = (Normal doc, {| trace := trace w; clock := S (clock w) |})
    /\ url doc = lit "https://fifa.com/en/tournaments/mens/worldcup/canadamexicousa2026"
    /\ content doc
       = match result_metadata result ≫= metadata_text with
         | Some (c :: text) => c :: text
         | _ => lit "No content available"
         end.
Proof.
  intros Hlower Htext. rewrite toDocument_run. eexists. split; [reflexivity|].
  cbn [url content documentAt].
  pose proof (content_choice (result_text result)
                (result_metadata result ≫= metadata_text)
                (lit "No content available")) as Hcontent.
  destruct Htext as [Ht|Ht]; rewrite Ht in *; cbn [orElse truthy default from_option id];
    (split; [apply classify_empty; exact Hlower | exact Hcontent]).
Qed.

Lemma toDocument_url_from_text_witness :
  exists doc,
    toDocument (servicesUp None)
      {| result_id := lit "doc-20"; result_score := None; result_text := None;
         result_metadata := Some {| metadata_text := Some (lit "Estadio Azteca") |};
         result_other := [] |} 0 initial
    = (Normal doc, {| trace := trace initial; clock := S (clock initial) |})
    /\ url doc = lit "https://fifa.com/en/tournaments/mens/worldcup/canadamexicousa2026"
    /\ content doc
       = match Some {| metadata_text := Some (lit "Estadio Azteca") |} ≫= metadata_text with
         | Some (c :: text) => c :: text
         | _ => lit "No content available"
         end.
Proof.
  exact (toDocument_url_from_text (servicesUp None)
           {| result_id := lit "doc-20"; result_score := None; result_text := None;
              result_metadata := Some {| metadata_text := Some (lit "Estadio Azteca") |};
              result_other := [] |} 0 initial eq_refl (or_introl eq_refl)).
Defined.

(** X5: the orchestrator never throws and makes exactly one call, a
    POST of the query with limit 5 and threshold 0.3 to the search
    address; the embedding it is given plays no part.  It returns null,
    after logging the error, exactly when the call is rejected, the
    status is outside 200-299 or the body cannot be read; otherwise it
    returns a result and has read the clock once per document. *)
Theorem queryRAGSystem_outcome (svc : Services) (embedding : list number)
    (query : jsstring) (w : World) :
  let call := EvFetch (lit "http://localhost:8000/search")
                {| rag_query := query; limit := 5; score_threshold := 0.3%float |} in
  let failed :=
    match fetch svc (lit "http://localhost:8000/search")
            {| rag_query := query; limit := 5; score_threshold := 0.3%float |} with
    | None => true
    | Some response =>
        negb (response_ok response)
        || match response_json response with Some _ => false | None => true end
    end in
  (exists ragResponse w',
      queryRAGSystem svc embedding query w = (Normal ragResponse, w')
      /\ (if failed
          then ragResponse = None
               /\ w' = {| trace := trace w ++ [call; EvConsoleError RagCatch];
                          clock := clock w |}
          else exists r,
               ragResponse = Some r
               /\ w' = {| trace := trace w ++ [call];
                          clock := clock w + length (documents r) |}))
  /\ (forall embedding',
        queryRAGSystem svc embedding' query w = queryRAGSystem svc embedding query w).
Proof.
  intros call failed. split; [|intros e'; rewrite !queryRAGSystem_run; reflexivity].
  rewrite queryRAGSystem_run. do 2 eexists. split; [reflexivity|].
  subst failed call. unfold retrieval.
  change (lit "http://localhost:8000/search") with searchUrl.
  change {| rag_query := query; limit := 5; score_threshold := 0.3%float |}
    with (searchRequest query).
  destruct (fetch svc searchUrl (searchRequest query)) as [response|];
    [|split; reflexivity].
  destruct (response_ok response); cbn [negb orb]; [|split; reflexivity].
  destruct (response_json response) as [ragResults|]; [|split; reflexivity].
  cbn [fst snd]. eexists. split; [reflexivity|].
  cbn [documents]. rewrite documentsFrom_length. reflexivity.
Qed.

(** X6: when the RAG API answers with a status in 200-299 and a body
    whose [results] is missing or an empty list, the orchestrator
    returns a result with no documents and [has_results] false, not
    null; it logs no error and does not read the clock, and the prompt
    built from the result is the no-answer prompt. *)
Theorem queryRAGSystem_empty_results (svc : Services) (embedding : list number)
    (query : jsstring) (w : World) (response : FetchResponse) (ragResults : RagResults) :
  fetch svc (lit "http://localhost:8000/search")
    {| rag_query := query; limit := 5; score_threshold := 0.3%float |} = Some response ->
  response_ok response = true ->
  response_json response = Some ragResults ->
  results ragResults = None \/ results ragResults = Some [] ->
  queryRAGSystem svc embedding query w
  = (Normal (Some {| documents := []; has_results := false; query_id := None |}),
     {| trace := trace w ++ [EvFetch (lit "http://localhost:8000/search")
                               {| rag_query := query; limit := 5;
                                  score_threshold := 0.3%float |}];
        clock := clock w |})
  /\ buildSystemPrompt
       (Some {| documents := []; has_results := false; query_id := None |}) query
     = buildNoAnswerPrompt.
Proof.
  intros Hfetch Hok Hjson Hrs. split; [|reflexivity].
  rewrite queryRAGSystem_run.
  rewrite (retrieval_empty svc query w response ragResults Hfetch Hok Hjson).
  - unfold ticked, logged. cbn [fst snd trace clock]. rewrite Nat.add_0_r. reflexivity.
  - destruct Hrs as [-> | ->]; reflexivity.
Qed.

Lemma queryRAGSystem_empty_results_witness :
  queryRAGSystem (servicesUp None) [] sampleQuery initial
  = (Normal (Some {| documents := []; has_results := false; query_id := None |}),
     {| trace := trace initial ++ [EvFetch (lit "http://localhost:8000/search")
                                     {| rag_query := sampleQuery; limit := 5;
                                        score_threshold := 0.3%float |}];
        clock := clock initial |}).
Proof.
  exact (proj1 (queryRAGSystem_empty_results (servicesUp None) [] sampleQuery initial
                  {| status := 200; statusText := lit "OK";
                     response_json := Some {| total_found := None; results := None |} |}
                  {| total_found := None; results := None |}
                  eq_refl eq_refl eq_refl (or_introl eq_refl))).
Defined.

(** ** The handler, further *)

Lemma trimStart_truthy (s : jsstring) :
  truthy (trimStart s) = negb (forallb isWhiteSpace s).
Proof.
  induction s as [|c s IH]; [reflexivity|]. cbn [trimStart forallb].
  destruct (isWhiteSpace c); [exact IH | reflexivity].
Qed.

Lemma forallb_trimStart (s : jsstring) :
  forallb isWhiteSpace (trimStart s) = forallb isWhiteSpace s.
Proof.
  induction s as [|c s IH]; [reflexivity|]. cbn [trimStart forallb].
  destruct (isWhiteSpace c) eqn:E; [exact IH|]. cbn [forallb]. rewrite E. reflexivity.
Qed.

Lemma forallb_rev {A} (f : A -> bool) (l : list A) : forallb f (rev l) = forallb f l.
Proof.
  induction l as [|x l IH]; [reflexivity|]. cbn [rev forallb].
  rewrite forallb_app, IH. cbn [forallb]. rewrite andb_true_r. apply andb_comm.
Qed.

Lemma truthy_rev (s : jsstring) : truthy (rev s) = truthy s.
Proof.
  destruct s as [|c s]; [reflexivity|]. cbn [rev].
  destruct (rev s); reflexivity.
Qed.

(** The trimmed string is empty exactly when every code unit is white
    space. *)
Lemma truthy_trim (s : jsstring) : truthy (trim s) = negb (forallb isWhiteSpace s).
Proof.
  unfold trim, trimEnd.
  rewrite truthy_rev, trimStart_truthy, forallb_rev, forallb_trimStart. reflexivity.
Qed.

Lemma fallbackOutcome_cases (svc : Services) (ms : list UIMessage) (w : World) :
  exists response evs,
    fallbackOutcome svc ms w = (Normal response, logged w evs)
    /\ (response = internalServerError /\ streamText svc (fallbackArgs ms) = false
        \/ response = UIMessageStreamResponse (fallbackArgs ms)
           /\ streamText svc (fallbackArgs ms) = true).
Proof.
  unfold fallbackOutcome.
  destruct (streamText svc (fallbackArgs ms)); do 2 eexists; (split; [reflexivity|]); auto.
Qed.

Lemma promptedOutcome_cases (svc : Services) (p : jsstring) (ms : list UIMessage)
    (w : World) :
  exists response evs,
    promptedOutcome svc p ms w = (Normal response, logged w evs)
    /\ (response = internalServerError /\ streamText svc (fallbackArgs ms) = false
        \/ response = UIMessageStreamResponse (fallbackArgs ms)
           /\ streamText svc (fallbackArgs ms) = true
        \/ response = UIMessageStreamResponse (ragArgs p ms)
           /\ streamText svc (ragArgs p ms) = true).
Proof.
  unfold promptedOutcome. destruct (streamText svc (ragArgs p ms)) eqn:E.
  - do 2 eexists. split; [reflexivity|]. auto.
  - destruct (fallbackOutcome_cases svc ms
                (logged w [EvStreamText (ragArgs p ms); EvConsoleError EmbeddingCatch]))
      as (response & evs & -> & H).
    rewrite logged_logged. do 2 eexists. split; [reflexivity|]. tauto.
Qed.

(** X7: the handler never throws.  It answers either with the stream
    of a completion call that succeeded, made on all the messages of
    the request, or with the fixed 500 response; the latter only when
    the body is malformed or the completion call without a system
    prompt throws. *)
Theorem POST_always_responds (svc : Services) (req : Request) (w : World) :
  exists response w',
    POST svc req w = (Normal response, w')
    /\ (response = PlainResponse (lit "Internal Server Error") 500
        /\ ((req_json req ≫= messages) = None
            \/ exists ms, (req_json req ≫= messages) = Some ms
                 /\ streamText svc {| model := lit "gpt-5"; system := None;
                                      model_messages := ms |} = false)
        \/ exists args ms,
             response = UIMessageStreamResponse args
             /\ streamText svc args = true
             /\ (req_json req ≫= messages) = Some ms
             /\ model_messages args = ms).
Proof.
  destruct (req_json req ≫= messages) as [ms|] eqn:Hreq.
  - rewrite (POST_run svc req ms w Hreq). unfold handled.
    assert (Hfallback : forall w0, exists response w',
      fallbackOutcome svc ms w0 = (Normal response, w')
      /\ (response = internalServerError
          /\ (Some ms = None
              \/ exists ms0, Some ms = Some ms0 /\ streamText svc (fallbackArgs ms0) = false)
          \/ exists args ms0, response = UIMessageStreamResponse args
               /\ streamText svc args = true /\ Some ms = Some ms0
               /\ model_messages args = ms0)).
    { intros w0. destruct (fallbackOutcome_cases svc ms w0)
        as (response & evs & -> & [[-> H]|[-> H]]); do 2 eexists;
        (split; [reflexivity|]); [left|right]; eauto 10. }
    destruct (truthy (trim (extractQuery ms))); [|apply Hfallback].
    destruct (embed svc EMBEDDING_MODEL (extractQuery ms)); [|apply Hfallback].
    cbv zeta.
    destruct (promptedOutcome_cases svc
                (buildSystemPrompt
                   (retrieval svc (extractQuery ms)
                      (logged w [EvEmbed EMBEDDING_MODEL (extractQuery ms)])).1
                   (extractQuery ms))
                ms
                (retrieval svc (extractQuery ms)
                   (logged w [EvEmbed EMBEDDING_MODEL (extractQuery ms)])).2)
      as (response & evs & -> & [[-> H]|[[-> H]|[-> H]]]); do 2 eexists;
      (split; [reflexivity|]); [left|right|right]; eauto 10.
  - rewrite (POST_malformed svc req w Hreq). do 2 eexists. split; [reflexivity|].
    left. split; [reflexivity | left; reflexivity].
Qed.

(** X8: the handler's inner catch also covers the completion call.
    When the call carrying the system prompt throws, the handler logs
    at that catch and makes the call without a system prompt; its
    answer is the stream of that second call, or the 500 response when
    the second call throws too. *)
Theorem POST_prompted_call_throws (svc : Services) (req : Request)
    (ms : list UIMessage) (w w1 : World) (e : list number)
    (ragResponse : option RAGResponse) :
  (req_json req ≫= messages) = Some ms ->
  truthy (trim (extractQuery ms)) = true ->
  let query := extractQuery ms in
  let embedCall := EvEmbed (lit "openai/text-embedding-3-small") query in
  let prompted := {| model := lit "openai/gpt-4o-mini";
                     system := Some (buildSystemPrompt ragResponse query);
                     model_messages := ms |} in
  let unprompted := {| model := lit "gpt-5"; system := None; model_messages := ms |} in
  embed svc (lit "openai/text-embedding-3-small") query = Some e ->
  queryRAGSystem svc e query (logged w [embedCall]) = (Normal ragResponse, w1) ->
  streamText svc prompted = false ->
  POST svc req w
  = (if streamText svc unprompted
     then (Normal (UIMessageStreamResponse unprompted),
           logged w1 [EvStreamText prompted; EvConsoleError EmbeddingCatch;
                      EvStreamText unprompted])
     else (Normal (PlainResponse (lit "Internal Server Error") 500),
           logged w1 [EvStreamText prompted; EvConsoleError EmbeddingCatch;
                      EvStreamText unprompted; EvConsoleError ChatCatch])).
Proof.
  intros Hreq Hq query embedCall prompted unprompted He Hrag Hthrow.
  subst query embedCall prompted unprompted.
  change (lit "openai/text-embedding-3-small") with EMBEDDING_MODEL in *.
  rewrite queryRAGSystem_run in Hrag. injection Hrag as Hr Hw.
  rewrite (POST_run svc req ms w Hreq). unfold handled.
  rewrite Hq, He. cbv zeta. rewrite Hr, Hw.
  unfold promptedOutcome.
  change (ragArgs (buildSystemPrompt ragResponse (extractQuery ms)) ms)
    with {| model := lit "openai/gpt-4o-mini";
            system := Some (buildSystemPrompt ragResponse (extractQuery ms));
            model_messages := ms |}.
  rewrite Hthrow. unfold fallbackOutcome.
  change (fallbackArgs ms)
    with {| model := lit "gpt-5"; system := None; model_messages := ms |}.
  destruct (streamText svc {| model := lit "gpt-5"; system := None;
                              model_messages := ms |});
    rewrite logged_logged; reflexivity.
Qed.

Lemma POST_prompted_call_throws_witness :
  POST {| toLowerCase := asciiToLowerCase;
          embed := fun _ _ => Some [];
          fetch := fun _ _ => None;
          streamText := fun args => match system args with Some _ => false | None => true end;
          toISOString := sampleClock |}
    (chatRequest sampleMessages) initial
  = (Normal (UIMessageStreamResponse
               {| model := lit "gpt-5"; system := None; model_messages := sampleMessages |}),
     logged
       (logged initial [EvEmbed (lit "openai/text-embedding-3-small") sampleQuery;
                        EvFetch searchUrl (searchRequest sampleQuery);
                        EvConsoleError RagCatch])
       [EvStreamText {| model := lit "openai/gpt-4o-mini";
                        system := Some (buildSystemPrompt None (extractQuery sampleMessages));
                        model_messages := sampleMessages |};
        EvConsoleError EmbeddingCatch;
        EvStreamText
          {| model := lit "gpt-5"; system := None; model_messages := sampleMessages |}]).
Proof.
  exact (POST_prompted_call_throws
           {| toLowerCase := asciiToLowerCase;
              embed := fun _ _ => Some [];
              fetch := fun _ _ => None;
              streamText := fun args =>
                match system args with Some _ => false | None => true end;
              toISOString := sampleClock |}
           (chatRequest sampleMessages) sampleMessages initial
           (logged initial [EvEmbed (lit "openai/text-embedding-3-small") sampleQuery;
                            EvFetch searchUrl (searchRequest sampleQuery);
                            EvConsoleError RagCatch])
           [] None eq_refl eq_refl eq_refl eq_refl eq_refl).
Defined.

Lemma citation_includes (r : RAGResponse) (userQuery : jsstring) (i : nat)
    (doc : RAGDocument) (k : jsstring) :
  has_results r = true ->
  documents r !! i = Some doc ->
  includes (sourceBlock doc i) k = true ->
  includes (buildSystemPrompt (Some r) userQuery) k = true.
Proof.
  intros Hflag Hi Hk. unfold buildSystemPrompt. rewrite Hflag.
  destruct (documents r) as [|d ds] eqn:E; [discriminate Hi|]. cbn [negb orb length Nat.ltb Nat.leb].
  apply includes_skip, includes_app_l. unfold buildContextFromSources.
  apply (includes_join _ _ (sourceBlock doc i)); [|exact Hk].
  apply (lookup_In _ i). unfold mapi.
  rewrite (mapi_from_lookup sourceBlock (d :: ds) 0 i doc Hi). reflexivity.
Qed.

Lemma citation_not_no_answer (docs : list RAGDocument) (userQuery : jsstring) :
  PROMPT_HEAD ++ buildContextFromSources docs ++ PROMPT_QUESTION ++ userQuery ++ DQ
  <> buildNoAnswerPrompt.
Proof.
  intros H. apply (f_equal (take 5)) in H. vm_compute in H. discriminate H.
Qed.

Lemma imap_documentsFrom {B} (svc : Services) (rs : list RawResult) :
  forall (g : nat -> RAGDocument -> B) (k t : nat),
    imap g (documentsFrom svc k t rs)
    = imap (fun i result => g i (documentAt svc result (k + i) (t + i))) rs.
Proof.
  induction rs as [|r rs IH]; intros g k t; [reflexivity|].
  cbn [documentsFrom]. rewrite !imap_cons, !Nat.add_0_r. f_equal.
  rewrite IH. apply imap_ext. intros i result _. cbn [compose].
  replace (S k + i)%nat with (k + S i)%nat by lia.
  replace (S t + i)%nat with (t + S i)%nat by lia. reflexivity.
Qed.

(** X9: the augmented path end to end.  When the embedding succeeds,
    the RAG API answers with a non-empty result list and the completion
    service takes the call, the handler answers with the stream of the
    call to [openai/gpt-4o-mini] whose system prompt is the citation
    prompt over the results: the fixed head, then for the result at
    index [i] a block [[Source n] FIFA Document n], [n] the decimal
    numeral of [i + 1], with the result's content, its classified URL
    and the i-th clock reading, the blocks separated by two line feeds,
    three dashes and two line feeds, and then the question.  It is not
    the no-answer prompt.  The calls are the embedding, the search and
    that completion, and the clock is read once per result. *)
Theorem POST_augmented (svc : Services) (req : Request) (ms : list UIMessage)
    (w : World) (e : list number) (response : FetchResponse)
    (ragResults : RagResults) (rs : list RawResult) :
  (req_json req ≫= messages) = Some ms ->
  truthy (trim (extractQuery ms)) = true ->
  embed svc (lit "openai/text-embedding-3-small") (extractQuery ms) = Some e ->
  fetch svc (lit "http://localhost:8000/search")
    {| rag_query := extractQuery ms; limit := 5; score_threshold := 0.3%float |}
  = Some response ->
  response_ok response = true ->
  response_json response = Some ragResults ->
  results ragResults = Some rs ->
  rs <> [] ->
  let query := extractQuery ms in
  let prompt :=
    buildSystemPrompt
      (Some {| documents := documentsFrom svc 0 (clock w) rs;
               has_results := true; query_id := None |}) query in
  let prompted := {| model := lit "openai/gpt-4o-mini";
                     system := Some prompt;
                     model_messages := ms |} in
  streamText svc prompted = true ->
  POST svc req w
  = (Normal (UIMessageStreamResponse prompted),
     {| trace := trace w ++
                 [EvEmbed (lit "openai/text-embedding-3-small") query;
                  EvFetch (lit "http://localhost:8000/search")
                    {| rag_query := query; limit := 5; score_threshold := 0.3%float |};
                  EvStreamText prompted];
        clock := clock w + length rs |})
  /\ prompt <> buildNoAnswerPrompt
  /\ prompt
     = PROMPT_HEAD ++
       concat
         (imap (fun i result =>
                  match i with
                  | O => []
                  | S _ => NL ++ NL ++ lit "---" ++ NL ++ NL
                  end ++
                  lit "[Source " ++ numberToString (i + 1) ++ lit "] " ++
                  lit "FIFA Document " ++ numberToString (i + 1) ++ NL ++
                  lit "Content: " ++
                  match result_text result with
                  | Some (c :: text) => c :: text
                  | _ =>
                      match result_metadata result ≫= metadata_text with
                      | Some (c :: text) => c :: text
                      | _ => lit "No content available"
                      end
                  end ++ NL ++
                  lit "URL: " ++
                  convertToRealFIFAUrl (toLowerCase svc) (result_id result)
                    (default [] (result_text result)) ++ NL ++
                  lit "Last indexed: " ++ toISOString svc (clock w + i))
            rs) ++
       NL ++ NL ++
       lit "Based on this FIFA.com content, please answer the user's question: " ++
       DQ ++ query ++ DQ
  /\ (forall i, isNumeral (numberToString (i + 1)) (i + 1))
  /\ (forall i result,
        rs !! i = Some result ->
        includes prompt
          (lit "[Source " ++ numberToString (i + 1) ++ lit "] " ++
           lit "FIFA Document " ++ numberToString (i + 1)) = true
        /\ includes prompt
             (convertToRealFIFAUrl (toLowerCase svc) (result_id result)
                (default [] (orElse (result_text result) (Some [])))) = true
        /\ (forall text, result_text result = Some text -> includes prompt text = true)).
Proof.
  intros Hreq Hq He Hfetch Hok Hjson Hrs Hne query prompt prompted Hstream.
  change (lit "openai/text-embedding-3-small") with EMBEDDING_MODEL in *.
  change (lit "http://localhost:8000/search") with searchUrl in *.
  change {| rag_query := extractQuery ms; limit := 5; score_threshold := 0.3%float |}
    with (searchRequest query) in *.
  assert (Hflag : (0 <? length (documentsFrom svc 0 (clock w) rs))%nat = true).
  { rewrite documentsFrom_length. destruct rs; [contradiction | reflexivity]. }
  assert (Hprompt : prompt = PROMPT_HEAD ++
            buildContextFromSources (documentsFrom svc 0 (clock w) rs) ++
            PROMPT_QUESTION ++ query ++ DQ).
  { subst prompt. unfold buildSystemPrompt. cbn [has_results documents negb orb].
    rewrite Hflag. reflexivity. }
  split; [|split; [|split; [|split]]].
  - rewrite (POST_run svc req ms w Hreq). unfold handled.
    fold query. fold query in Hq, He. rewrite Hq, He. cbv zeta.
    unfold retrieval. rewrite Hfetch, Hok, Hjson, Hrs.
    cbn [default from_option id fst snd logged clock].
    rewrite Hflag. fold prompt.
    rewrite promptedOutcome_ok by exact Hstream.
    unfold logged, ticked. cbn [trace clock]. rewrite <- !app_assoc. reflexivity.
  - rewrite Hprompt. apply citation_not_no_answer.
  - rewrite Hprompt. unfold buildContextFromSources, mapi, PROMPT_QUESTION.
    rewrite join_mapi_from, imap_documentsFrom, <- !app_assoc. do 3 f_equal.
    apply imap_ext. intros i result _.
    unfold sourceBlock. cbn [title content url fetched_at documentAt Nat.add].
    rewrite (content_choice (result_text result)
               (result_metadata result ≫= metadata_text)
               (lit "No content available")).
    replace (default [] (orElse (result_text result) (Some [])))
      with (default [] (result_text result))
      by (destruct (result_text result) as [[|c text]|]; reflexivity).
    destruct i; cbn [afterSeparator]; rewrite <- ?app_assoc; reflexivity.
  - intros i. apply numberToString_numeral.
  - intros i result Hi.
    pose proof (documentsFrom_lookup svc rs 0 (clock w) i result Hi) as Hdoc.
    set (r := {| documents := documentsFrom svc 0 (clock w) rs;
                 has_results := true; query_id := None |}) in *.
    assert (Hin : forall k,
               includes (sourceBlock (documentAt svc result (0 + i) (clock w + i)) i) k = true ->
               includes prompt k = true)
      by (intros k; apply (citation_includes r query i _ k eq_refl Hdoc)).
    split; [|split].
    + apply Hin. unfold sourceBlock. cbn [title documentAt Nat.add].
      apply includes_here, startsWith_prefix. eexists.
      rewrite <- !app_assoc. reflexivity.
    + apply Hin. exact (proj1 (proj2 (proj2 (sourceBlock_includes _ i)))).
    + intros text Ht. destruct text as [|c text].
      * destruct prompt; reflexivity.
      * apply Hin.
        pose proof (proj1 (proj2 (sourceBlock_includes
                      (documentAt svc result (0 + i) (clock w + i)) i))) as Hc.
        cbn [content documentAt] in Hc. rewrite Ht in Hc. exact Hc.
Qed.

(** Two results, the second without text: the system prompt the model
    is called with, spelled out. *)
Lemma POST_augmented_witness :
  POST (servicesUp (Some [ticketResult; bareResult])) (chatRequest sampleMessages) initial
  = (Normal (UIMessageStreamResponse
               {| model := lit "openai/gpt-4o-mini";
                  system := Some sampleCitationPrompt;
                  model_messages := sampleMessages |}),
     {| trace := [EvEmbed (lit "openai/text-embedding-3-small")
                    (lit "What are ticket prices?");
                  EvFetch (lit "http://localhost:8000/search")
                    {| rag_query := lit "What are ticket prices?"; limit := 5;
                       score_threshold := 0.3%float |};
                  EvStreamText
                    {| model := lit "openai/gpt-4o-mini";
                       system := Some sampleCitationPrompt;
                       model_messages := sampleMessages |}];
        clock := 2 |}).
Proof.
  refine (eq_trans
            (proj1 (POST_augmented (servicesUp (Some [ticketResult; bareResult]))
                      (chatRequest sampleMessages) sampleMessages initial
                      [0.25%float; 0.5%float]
                      {| status := 200; statusText := lit "OK";
                         response_json :=
                           Some {| total_found := None;
                                   results := Some [ticketResult; bareResult] |} |}
                      {| total_found := None;
                         results := Some [ticketResult; bareResult] |}
                      [ticketResult; bareResult]
                      eq_refl eq_refl eq_refl eq_refl eq_refl eq_refl eq_refl
                      ltac:(discriminate) eq_refl))
            _).
  vm_compute. reflexivity.
Defined.

Ltac case_streamText svc :=
  repeat match goal with
         | |- context [streamText svc ?a] => destruct (streamText svc a)
         end.

(** X10: which retrieval services a request reaches.  On a body with
    messages the handler calls the embedding service once when the
    extracted query has a code unit that is not white space, and not at
    all otherwise; it calls the RAG API once when that embedding
    succeeded, and not at all otherwise. *)
Theorem POST_call_pattern (svc : Services) (req : Request) (ms : list UIMessage) :
  (req_json req ≫= messages) = Some ms ->
  let query := extractQuery ms in
  let calls := trace (POST svc req initial).2 in
  List.filter isEmbedCall calls
  = (if forallb isWhiteSpace query then []
     else [EvEmbed (lit "openai/text-embedding-3-small") query])
  /\ List.filter isFetchCall calls
     = (if forallb isWhiteSpace query then []
        else match embed svc (lit "openai/text-embedding-3-small") query with
             | Some _ =>
                 [EvFetch (lit "http://localhost:8000/search")
                    {| rag_query := query; limit := 5; score_threshold := 0.3%float |}]
             | None => []
             end).
Proof.
  intros Hreq query calls. subst calls.
  rewrite (POST_run svc req ms initial Hreq).
  unfold handled. fold query. rewrite truthy_trim.
  change (lit "openai/text-embedding-3-small") with EMBEDDING_MODEL.
  change (lit "http://localhost:8000/search") with searchUrl.
  change {| rag_query := query; limit := 5; score_threshold := 0.3%float |}
    with (searchRequest query).
  unfold retrieval, promptedOutcome, fallbackOutcome.
  destruct (forallb isWhiteSpace query); cbn [negb];
    [| destruct (embed svc EMBEDDING_MODEL query);
       [ destruct (fetch svc searchUrl (searchRequest query)) as [response|];
         [ destruct (response_ok response);
           [ destruct (response_json response) | ] | ] | ] ];
    cbv zeta; cbn [fst snd];
    case_streamText svc;
    unfold logged, ticked;
    cbn [fst snd trace clock initial app List.filter isEmbedCall isFetchCall];
    split; reflexivity.
Qed.

Lemma POST_call_pattern_witness :
  List.filter isEmbedCall
    (trace (POST servicesEmbedDown (chatRequest sampleMessages) initial).2)
  = [EvEmbed (lit "openai/text-embedding-3-small") (extractQuery sampleMessages)]
  /\ List.filter isFetchCall
       (trace (POST servicesEmbedDown (chatRequest sampleMessages) initial).2)
     = [].
Proof.
  pose proof (POST_call_pattern servicesEmbedDown (chatRequest sampleMessages)
                sampleMessages eq_refl) as H.
  split; [exact (proj1 H) | exact (proj2 H)].
Defined.

Lemma join_snoc (sep : jsstring) (l : list jsstring) (x : jsstring) :
  join sep (l ++ [x])
  = match l with
    | [] => x
    | _ :: _ => join sep l ++ sep ++ x
    end.
Proof.
  induction l as [|y l IH]; [reflexivity|].
  destruct l as [|z l]; [reflexivity|].
  change ((y :: z :: l) ++ [x]) with (y :: ((z :: l) ++ [x])).
  change ((z :: l) ++ [x]) with (z :: (l ++ [x])) at 1.
  rewrite join_cons. change (z :: (l ++ [x])) with ((z :: l) ++ [x]).
  rewrite IH, join_cons. rewrite <- !app_assoc. reflexivity.
Qed.

Lemma extractQuery_snoc (history : list UIMessage) (m : UIMessage) :
  extractQuery (history ++ [m])
  = match parts m with
    | Some ps =>
        join (lit " ")
          (map (default []) (map part_text
             (filter (fun part => part_type part = lit "text") ps)))
    | None => []
    end.
Proof. unfold extractQuery. rewrite last_snoc. reflexivity. Qed.

(** X11: the query is taken from the last message alone, whatever its
    role and whatever precedes it.  Parts that are not of type [text]
    do not contribute, and a further text part is appended after a
    single space. *)
Theorem extractQuery_last_message (history : list UIMessage) (m : UIMessage) :
  (forall history' m',
      parts m' = parts m ->
      extractQuery (history' ++ [m']) = extractQuery (history ++ [m]))
  /\ (forall r ps1 p ps2,
        part_type p <> lit "text" ->
        extractQuery (history ++ [{| role := r; parts := Some (ps1 ++ p :: ps2) |}])
        = extractQuery (history ++ [{| role := r; parts := Some (ps1 ++ ps2) |}]))
  /\ (forall r ps text,
        extractQuery
          (history ++ [{| role := r;
                          parts := Some (ps ++ [{| part_type := lit "text";
                                                   part_text := Some text |}]) |}])
        = if existsb (fun p => bool_decide (part_type p = lit "text")) ps
          then extractQuery (history ++ [{| role := r; parts := Some ps |}]) ++
               lit " " ++ text
          else text).
Proof.
  split; [|split].
  - intros history' m' Hparts. rewrite !extractQuery_snoc, Hparts. reflexivity.
  - intros r ps1 p ps2 Hp. rewrite !extractQuery_snoc. cbn [parts].
    rewrite !filter_app, filter_cons_False by exact Hp. reflexivity.
  - intros r ps text. rewrite !extractQuery_snoc. cbn [parts].
    rewrite filter_app, filter_cons_True by reflexivity.
    rewrite filter_nil, !map_app. cbn [map default from_option id part_text].
    rewrite join_snoc.
    assert (Hex : existsb (fun p => bool_decide (part_type p = lit "text")) ps
                  = match filter (fun part => part_type part = lit "text") ps with
                    | [] => false
                    | _ :: _ => true
                    end).
    { induction ps as [|p ps IH]; [reflexivity|]. cbn [existsb].
      destruct (decide (part_type p = lit "text")) as [Hp|Hp].
      - rewrite filter_cons_True by exact Hp. rewrite bool_decide_eq_true_2 by exact Hp.
        reflexivity.
      - rewrite filter_cons_False by exact Hp. rewrite bool_decide_eq_false_2 by exact Hp.
        exact IH. }
    rewrite Hex.
    destruct (filter (fun part => part_type part = lit "text") ps); reflexivity.
Qed.

(** ** The first version of the handler *)

Lemma EmbedOnly_POST_run (svc : Services) (req : Request) (ms : list UIMessage)
    (w : World) :
  (req_json req ≫= messages) = Some ms ->
  EmbedOnly.POST svc req w
  = fallbackOutcome svc ms
      (if truthy (trim (extractQuery ms))
       then logged w
              (EvEmbed EMBEDDING_MODEL (extractQuery ms) ::
               match embed svc EMBEDDING_MODEL (extractQuery ms) with
               | Some _ => []
               | None => [EvConsoleError EmbeddingCatch]
               end)
       else w).
Proof.
  intros H. unfold EmbedOnly.POST.
  destruct (req_json req) as [body|]; [|discriminate H]. cbn in H.
  cbv [bind try_catch callEmbed emit must ret throw consoleError].
  rewrite H. fold EMBEDDING_MODEL. fold (fallbackArgs ms).
  unfold fallbackOutcome.
  destruct (truthy (trim (extractQuery ms)));
    [destruct (embed svc EMBEDDING_MODEL (extractQuery ms))|];
    cbv beta iota; rewrite callStreamText_run;
    destruct (streamText svc (fallbackArgs ms));
    unfold logged; cbn [trace clock]; rewrite <- ?app_assoc; reflexivity.
Qed.

(** X12: the first version of the handler never augments.  On a body
    with messages its answer is the stream of the completion call to
    [gpt-5] without a system prompt, or the 500 response when that call
    throws; the answer is the same whether the embedding service
    answers or fails, and the RAG API is never called. *)
Theorem EmbedOnly_POST_unaugmented (svc : Services) (req : Request)
    (ms : list UIMessage) (w : World) :
  (req_json req ≫= messages) = Some ms ->
  let unprompted := {| model := lit "gpt-5"; system := None; model_messages := ms |} in
  (EmbedOnly.POST svc req w).1
  = (if streamText svc unprompted
     then Normal (UIMessageStreamResponse unprompted)
     else Normal (PlainResponse (lit "Internal Server Error") 500))
  /\ (forall svc',
        streamText svc' unprompted = streamText svc unprompted ->
        (EmbedOnly.POST svc' req w).1 = (EmbedOnly.POST svc req w).1)
  /\ List.filter isFetchCall (trace (EmbedOnly.POST svc req w).2)
     = List.filter isFetchCall (trace w).
Proof.
  intros Hreq unprompted.
  assert (Hresp : forall s w0,
            (fallbackOutcome s ms w0).1
            = if streamText s unprompted
              then Normal (UIMessageStreamResponse unprompted)
              else Normal (PlainResponse (lit "Internal Server Error") 500)).
  { intros s w0. unfold fallbackOutcome. change (fallbackArgs ms) with unprompted.
    destruct (streamText s unprompted); reflexivity. }
  split; [|split].
  - rewrite (EmbedOnly_POST_run svc req ms w Hreq). apply Hresp.
  - intros svc' Hsame.
    rewrite (EmbedOnly_POST_run svc req ms w Hreq),
            (EmbedOnly_POST_run svc' req ms w Hreq), !Hresp, Hsame.
    reflexivity.
  - rewrite (EmbedOnly_POST_run svc req ms w Hreq). unfold fallbackOutcome.
    destruct (truthy (trim (extractQuery ms)));
      [destruct (embed svc EMBEDDING_MODEL (extractQuery ms))|];
      destruct (streamText svc (fallbackArgs ms));
      unfold logged; cbn [snd trace clock];
      rewrite ?List.filter_app; cbn [List.filter isFetchCall app];
      rewrite ?app_nil_r; reflexivity.
Qed.

Lemma EmbedOnly_POST_unaugmented_witness :
  (EmbedOnly.POST servicesEmbedDown (chatRequest sampleMessages) initial).1
  = (EmbedOnly.POST (servicesUp (Some [ticketResult])) (chatRequest sampleMessages)
       initial).1.
Proof.
  exact (proj1 (proj2 (EmbedOnly_POST_unaugmented (servicesUp (Some [ticketResult]))
                         (chatRequest sampleMessages) sampleMessages initial eq_refl))
           servicesEmbedDown eq_refl).
Defined.

(** ** The submit handler of the chat page *)

(** X13: the page sends a message exactly when the submit button is
    enabled, that is when the input has a code unit that is not white
    space.  What is sent is the input as typed, not trimmed; the input
    box is emptied on sending and kept otherwise; submitting again
    right away sends nothing. *)
Theorem handleSubmit_guard (input : jsstring) :
  (ChatUI.sent (ChatUI.handleSubmit input) = None
   <-> ChatUI.submitDisabled input = true)
  /\ (ChatUI.submitDisabled input = true <-> forallb isWhiteSpace input = true)
  /\ (forall text,
        ChatUI.sent (ChatUI.handleSubmit input) = Some text ->
        text = input /\ ChatUI.input_after (ChatUI.handleSubmit input) = [])
  /\ (ChatUI.sent (ChatUI.handleSubmit input) = None ->
      ChatUI.input_after (ChatUI.handleSubmit input) = input)
  /\ ChatUI.sent
       (ChatUI.handleSubmit (ChatUI.input_after (ChatUI.handleSubmit input)))
     = None.
Proof.
  unfold ChatUI.handleSubmit, ChatUI.submitDisabled. rewrite truthy_trim.
  destruct (forallb isWhiteSpace input) eqn:E; cbn [negb ChatUI.sent ChatUI.input_after].
  - rewrite truthy_trim, E. cbn [negb ChatUI.sent]. repeat split; auto; discriminate.
  - repeat split; try discriminate; congruence.
Qed.

(** ** Provenance hashing *)

Section Hashing.

Import Provenance.
Local Open Scope Z_scope.

Lemma toInt32_range (x : Z) : -2147483648 <= toInt32 x < 2147483648.
Proof.
  unfold toInt32.
  pose proof (Z.mod_pos_bound (x + 2147483648) 4294967296 ltac:(lia)). lia.
Qed.

Lemma toInt32_shift (x k : Z) : toInt32 (x + 4294967296 * k) = toInt32 x.
Proof.
  unfold toInt32. f_equal.
  replace (x + 4294967296 * k + 2147483648) with (x + 2147483648 + k * 4294967296) by lia.
  apply Z_mod_plus_full.
Qed.

Lemma toInt32_wraps (x : Z) : exists k, toInt32 x = x + 4294967296 * k.
Proof.
  unfold toInt32. exists (- ((x + 2147483648) / 4294967296)).
  pose proof (Z.div_mod (x + 2147483648) 4294967296 ltac:(lia)). lia.
Qed.

Lemma toInt32_small (x : Z) : -2147483648 <= x < 2147483648 -> toInt32 x = x.
Proof.
  intros H. unfold toInt32. rewrite Z.mod_small by lia. lia.
Qed.

(** Shift and subtract is multiplication by 31, up to wrap-around. *)
Lemma hashStep_31 (hash : Z) (char : N) :
  hashStep hash char = toInt32 (31 * hash + Z.of_N char).
Proof.
  unfold hashStep. cbv zeta. rewrite Z.land_diag, Z.shiftl_mul_pow2 by lia.
  destruct (toInt32_wraps hash) as [k1 Hk1]. rewrite Hk1.
  destruct (toInt32_wraps ((hash + 4294967296 * k1) * 2 ^ 5)) as [k2 Hk2]. rewrite Hk2.
  replace ((hash + 4294967296 * k1) * 2 ^ 5 + 4294967296 * k2 - hash + Z.of_N char)
    with (31 * hash + Z.of_N char + 4294967296 * (32 * k1 + k2)) by lia.
  apply toInt32_shift.
Qed.

Lemma hashStep_congr (p : Z) (char : N) :
  hashStep (toInt32 p) char = toInt32 (31 * p + Z.of_N char).
Proof.
  rewrite hashStep_31. destruct (toInt32_wraps p) as [k Hk]. rewrite Hk.
  replace (31 * (p + 4294967296 * k) + Z.of_N char)
    with (31 * p + Z.of_N char + 4294967296 * (31 * k)) by lia.
  apply toInt32_shift.
Qed.

Lemma hashLoop_polynomial (content : jsstring) (p : Z) :
  fold_left hashStep content (toInt32 p)
  = toInt32 (fold_left (fun value c => 31 * value + Z.of_N c) content p).
Proof.
  revert p. induction content as [|c content IH]; intros p; [reflexivity|].
  cbn [fold_left]. rewrite hashStep_congr. apply IH.
Qed.

Lemma hashCode_range (content : jsstring) :
  -2147483648 <= hashCode content < 2147483648.
Proof.
  unfold hashCode.
  change 0 with (toInt32 0). rewrite hashLoop_polynomial. apply toInt32_range.
Qed.

(** X14: the hash is a 32-bit signed integer, the value of the
    polynomial with base 31 over the code units wrapped into that
    range; appending a code unit multiplies by 31, adds the unit and
    wraps. *)
Theorem hashCode_polynomial (content : jsstring) :
  -2147483648 <= hashCode content < 2147483648
  /\ hashCode content = toInt32 (polynomial31 content)
  /\ (hashCode content - polynomial31 content) mod 4294967296 = 0
  /\ (forall c, hashCode (content ++ [c])
                = toInt32 (31 * hashCode content + Z.of_N c)).
Proof.
  assert (Hpoly : hashCode content = toInt32 (polynomial31 content)).
  { unfold hashCode, polynomial31. rewrite <- hashLoop_polynomial. reflexivity. }
  split; [rewrite Hpoly; apply toInt32_range|]. split; [exact Hpoly|]. split.
  - rewrite Hpoly. destruct (toInt32_wraps (polynomial31 content)) as [k ->].
    replace (polynomial31 content + 4294967296 * k - polynomial31 content)
      with (k * 4294967296) by lia.
    apply Z_mod_mult.
  - intros c. unfold hashCode. rewrite fold_left_app. cbn [fold_left].
    apply hashStep_31.
Qed.

Lemma hexUnit_digit (d : Z) :
  0 <= d < 16 ->
  isLowerHexDigit (hexUnit d) = true /\ hexDigitValue (hexUnit d) = d.
Proof.
  intros H.
  assert (Hd : d = 0 \/ d = 1 \/ d = 2 \/ d = 3 \/ d = 4 \/ d = 5 \/ d = 6 \/ d = 7 \/
               d = 8 \/ d = 9 \/ d = 10 \/ d = 11 \/ d = 12 \/ d = 13 \/ d = 14 \/ d = 15)
    by lia.
  repeat (destruct Hd as [->|Hd]; [split; reflexivity|]). subst d. split; reflexivity.
Qed.

Lemma hexDigits_spec (fuel : nat) :
  forall (n : Z) (acc : jsstring),
    0 <= n < 2 ^ Z.of_nat (S fuel) ->
    exists ds,
      hexDigits (S fuel) n acc = ds ++ acc
      /\ ds <> []
      /\ forallb isLowerHexDigit ds = true
      /\ (forall v, fold_left (fun value c => 16 * value + hexDigitValue c) ds v
                    = v * 16 ^ Z.of_nat (length ds) + n)
      /\ (forall k : nat, (1 <= k)%nat -> n < 16 ^ Z.of_nat k -> (length ds <= k)%nat).
Proof.
  induction fuel as [|fuel IH]; intros n acc Hn.
  - assert (Hsmall : n / 16 = 0) by (apply Z.div_small; cbn in Hn; lia).
    cbn [hexDigits]. rewrite Hsmall. cbn [Z.eqb].
    assert (Hmod : n mod 16 = n) by (apply Z.mod_small; cbn in Hn; lia).
    destruct (hexUnit_digit (n mod 16)) as [Hd Hv]; [rewrite Hmod; cbn in Hn; lia|].
    exists [hexUnit (n mod 16)]. repeat split.
    + discriminate.
    + cbn [forallb]. rewrite Hd. reflexivity.
    + intros v. cbn [fold_left length]. rewrite Hv, Hmod. cbn. lia.
    + intros k Hk _. cbn [length]. lia.
  - change (hexDigits (S (S fuel)) n acc)
      with (if n / 16 =? 0 then hexUnit (n mod 16) :: acc
            else hexDigits (S fuel) (n / 16) (hexUnit (n mod 16) :: acc)).
    pose proof (Z.mod_pos_bound n 16 ltac:(lia)) as Hm.
    pose proof (Z.div_mod n 16 ltac:(lia)) as Hdm.
    destruct (hexUnit_digit (n mod 16) Hm) as [Hd Hv].
    destruct (n / 16 =? 0) eqn:E.
    + apply Z.eqb_eq in E. exists [hexUnit (n mod 16)]. repeat split.
      * discriminate.
      * cbn [forallb]. rewrite Hd. reflexivity.
      * intros v. cbn [fold_left length]. rewrite Hv. cbn. lia.
      * intros k Hk _. cbn [length]. lia.
    + apply Z.eqb_neq in E.
      assert (Hq : 0 <= n / 16 < 2 ^ Z.of_nat (S fuel)).
      { split; [apply Z.div_pos; lia|].
        apply Z.div_lt_upper_bound; [lia|].
        rewrite (Nat2Z.inj_succ (S fuel)), Z.pow_succ_r in Hn by lia. lia. }
      destruct (IH (n / 16) (hexUnit (n mod 16) :: acc) Hq)
        as (ds & Heq & Hne & Hall & Hval & Hlen).
      exists (ds ++ [hexUnit (n mod 16)]). repeat split.
      * rewrite Heq, <- app_assoc. reflexivity.
      * destruct ds; discriminate.
      * rewrite forallb_app, Hall. cbn [forallb]. rewrite Hd. reflexivity.
      * intros v. rewrite fold_left_app, Hval. cbn [fold_left].
        rewrite Hv, length_app. cbn [length].
        rewrite Nat2Z.inj_add, Z.pow_add_r by lia. cbn. lia.
      * intros k Hk Hbound. rewrite length_app. cbn [length].
        destruct k as [|k]; [lia|].
        assert (Hpos : 0 <= n / 16) by lia.
        destruct k as [|k].
        { cbn in Hbound. assert (n / 16 = 0) by (apply Z.div_small; lia). lia. }
        assert (Hle : (length ds <= S k)%nat).
        { apply Hlen; [lia|]. apply Z.div_lt_upper_bound; [lia|].
          rewrite (Nat2Z.inj_succ (S k)), Z.pow_succ_r in Hbound by lia. lia. }
        lia.
Qed.

Lemma toString16_spec (n : Z) :
  exists digits,
    toString16 n = (if n <? 0 then lit "-" else []) ++ digits
    /\ digits <> []
    /\ forallb isLowerHexDigit digits = true
    /\ hexValue digits = Z.abs n
    /\ (forall k : nat, (1 <= k)%nat -> Z.abs n < 16 ^ Z.of_nat k -> (length digits <= k)%nat).
Proof.
  unfold toString16. cbv zeta.
  assert (Hfuel : 0 <= Z.abs n < 2 ^ Z.of_nat (S (Z.to_nat (Z.log2 (Z.abs n))))).
  { split; [lia|]. rewrite Nat2Z.inj_succ, Z2Nat.id by apply Z.log2_nonneg.
    destruct (Z.eq_dec (Z.abs n) 0) as [->|Hnz]; [reflexivity|].
    apply Z.log2_spec. lia. }
  destruct (hexDigits_spec _ (Z.abs n) [] Hfuel) as (ds & Heq & Hne & Hall & Hval & Hlen).
  rewrite app_nil_r in Heq. exists ds. rewrite Heq. repeat split; try assumption.
  - destruct (n <? 0); reflexivity.
  - unfold hexValue. rewrite Hval. lia.
Qed.

(** X15: the hash of a content is printed as a minus sign, when the
    hash is negative, followed by one to eight lower-case hexadecimal
    digits that denote the magnitude of the hash. *)
Theorem hashContent_shape (content : jsstring) :
  exists digits,
    hashContent content
    = (if hashCode content <? 0 then lit "-" else []) ++ digits
    /\ (1 <= length digits <= 8)%nat
    /\ forallb isLowerHexDigit digits = true
    /\ hexValue digits = Z.abs (hashCode content).
Proof.
  unfold hashContent.
  destruct (toString16_spec (hashCode content)) as (ds & Heq & Hne & Hall & Hval & Hlen).
  exists ds. split; [exact Heq|]. split; [|split; assumption].
  split; [destruct ds; [contradiction | cbn [length]; lia]|].
  apply Hlen; [lia|].
  pose proof (hashCode_range content). cbn. lia.
Qed.

End Hashing.

(** ** Citation lines *)

(** X16: the citation formatter returns the empty string exactly when
    the source list is null or empty, in every mode.  In the
    [FULL_LINKS] mode the output is the Markdown link of every source,
    in order, every link but the first preceded by a comma and a space.
    In the other modes, and when no mode is given, the output is the
    fixed line ending with the latest date, which depends on the
    sources through their fetched_at values only. *)
Theorem formatCitations_modes
    (getTime : jsstring -> number) (mathMax : list number -> number)
    (toLocaleDateString : number -> jsstring) :
  (forall sources mode,
      Provenance.formatCitations getTime mathMax toLocaleDateString sources mode = []
      <-> sources = None \/ sources = Some [])
  /\ (forall sources,
        Provenance.formatCitations getTime mathMax toLocaleDateString (Some sources)
          (Some Provenance.FULL_LINKS)
        = concat
            (imap (fun i s =>
                     match i with
                     | O => []
                     | S _ => lit ", "
                     end ++
                     lit "[" ++ title s ++ lit "](" ++ url s ++ lit ")")
               sources))
  /\ (forall sources sources' mode mode',
        sources <> [] ->
        map fetched_at sources' = map fetched_at sources ->
        mode <> Some Provenance.FULL_LINKS ->
        mode' <> Some Provenance.FULL_LINKS ->
        Provenance.formatCitations getTime mathMax toLocaleDateString (Some sources') mode'
        = Provenance.formatCitations getTime mathMax toLocaleDateString (Some sources) mode
        /\ Provenance.formatCitations getTime mathMax toLocaleDateString (Some sources) mode
           = lit "Verified from fifa.com " ++ [8226] ++ lit " Last indexed " ++
             toLocaleDateString (mathMax (map getTime (map fetched_at sources)))).
Proof.
  assert (Hline : forall sources mode,
            sources <> [] -> mode <> Some Provenance.FULL_LINKS ->
            Provenance.formatCitations getTime mathMax toLocaleDateString (Some sources) mode
            = lit "Verified from fifa.com " ++ [8226] ++ lit " Last indexed " ++
              toLocaleDateString (mathMax (map getTime (map fetched_at sources)))).
  { intros [|s sources] mode Hne Hmode; [contradiction|].
    rewrite map_map.
    destruct mode as [[]|]; try reflexivity. contradiction. }
  split; [|split].
  - intros sources mode. split.
    + destruct sources as [[|s sources]|]; [auto | | auto].
      intros H. exfalso.
      destruct mode as [[]|];
        cbn [Provenance.formatCitations default from_option id map] in H;
        rewrite ?join_tail in H;
        apply (f_equal (take 1)) in H; vm_compute in H; discriminate H.
    + intros [-> | ->]; destruct mode as [[]|]; reflexivity.
  - intros [|s sources]; [reflexivity|].
    cbn [Provenance.formatCitations default from_option id].
    rewrite join_map. reflexivity.
  - intros sources sources' mode mode' Hne Hdates Hmode Hmode'.
    split; [|apply Hline; assumption].
    rewrite !Hline; try assumption.
    + rewrite Hdates. reflexivity.
    + intros ->. destruct sources; [contradiction | discriminate Hdates].
Qed.

Lemma formatCitations_modes_witness :
  Provenance.formatCitations (fun _ => 0%float) (fun _ => 0%float) (fun _ => lit "6/2/2025")
    (Some [sampleDocument (lit "1"); sampleDocument (lit "2")])
    (Some Provenance.FULL_LINKS)
  = lit "[Title 1](https://fifa.com/en/1), [Title 2](https://fifa.com/en/2)"
  /\ Provenance.formatCitations (fun _ => 0%float) (fun _ => 0%float)
       (fun _ => lit "6/2/2025")
       (Some [sampleDocument (lit "1"); sampleDocument (lit "2")])
       (Some Provenance.HIDDEN)
     = lit "Verified from fifa.com " ++ [8226] ++ lit " Last indexed 6/2/2025".
Proof.
  pose proof (formatCitations_modes (fun _ => 0%float) (fun _ => 0%float)
                (fun _ => lit "6/2/2025")) as (_ & Hfull & Hline).
  split.
  - exact (Hfull [sampleDocument (lit "1"); sampleDocument (lit "2")]).
  - exact (proj2 (Hline [sampleDocument (lit "1"); sampleDocument (lit "2")]
                    [sampleDocument (lit "1"); sampleDocument (lit "2")]
                    (Some Provenance.HIDDEN) (Some Provenance.HIDDEN)
                    ltac:(discriminate) eq_refl ltac:(discriminate) ltac:(discriminate))).
Defined.
